(** * run_filtered.py: the filtered Mend.io crawler

    A shallow embedding of [Raw_Data_Crawling/github/run_filtered.py]:
    the taxonomy filter [has_allowed_cwe], the fetch primitive [get_soup],
    the two crawl stages [step_one] and [step_two], and the properties of
    the harvest pipeline that the specification states about them.

    Text is [String.string]: a sequence of code points below 256.  On such
    text Python's [\d] is exactly ['0'..'9'] and [str.strip] removes the
    code points 9-13, 28-32, 133 and 160. *)

From Stdlib Require Import String Ascii List Bool Arith ZArith QArith Lia.
From Stdlib Require Import DecimalString DecimalPos Sorted.
Import ListNotations.
Close Scope Q_scope.
Open Scope nat_scope.
Open Scope list_scope.
Open Scope string_scope.

(** ** Python string primitives *)

Module PyStr.

Definition nl : string := String (ascii_of_nat 10) EmptyString.

Definition is_digit (c : ascii) : bool :=
  let n := nat_of_ascii c in ((48 <=? n) && (n <=? 57))%nat.

(** [str.isspace] on one code point below 256. *)
Definition is_space (c : ascii) : bool :=
  let n := nat_of_ascii c in
  (((9 <=? n) && (n <=? 13)) || ((28 <=? n) && (n <=? 32))
   || (n =? 133) || (n =? 160))%nat.

(** [s.startswith(p)] *)
Fixpoint startswith (p s : string) : bool :=
  match p, s with
  | EmptyString, _ => true
  | String a p', String b s' => Ascii.eqb a b && startswith p' s'
  | String _ _, EmptyString => false
  end.

(** [p in s] for strings. *)
Fixpoint contains (p s : string) : bool :=
  startswith p s ||
  match s with
  | EmptyString => false
  | String _ s' => contains p s'
  end.

Fixpoint drop (n : nat) (s : string) : string :=
  match n, s with
  | O, _ => s
  | S n', String _ s' => drop n' s'
  | S _, EmptyString => EmptyString
  end.

Fixpoint lstrip (s : string) : string :=
  match s with
  | String c s' => if is_space c then lstrip s' else s
  | EmptyString => EmptyString
  end.

(** Removes trailing white space: a character is kept when something
    that is not white space follows it or when it is not white space. *)
Fixpoint rstrip (s : string) : string :=
  match s with
  | EmptyString => EmptyString
  | String c s' =>
      match rstrip s' with
      | EmptyString => if is_space c then EmptyString else String c EmptyString
      | r => String c r
      end
  end.

(** [s.strip()] *)
Definition strip (s : string) : string := rstrip (lstrip s).

(** [s.replace(old, new)] for a non-empty [old]: occurrences are replaced
    from the left and do not overlap; [skip] counts the characters of the
    occurrence just replaced that are still to be passed over. *)
Fixpoint replace_from (skip : nat) (old new s : string) : string :=
  match s with
  | EmptyString => EmptyString
  | String c s' =>
      match skip with
      | S k => replace_from k old new s'
      | O =>
          if startswith old s
          then new ++ replace_from (String.length old - 1) old new s'
          else String c (replace_from 0 old new s')
      end
  end.

Definition replace (old new s : string) : string := replace_from 0 old new s.

(** [s.split(sep)[-1]] for a one-character [sep]: the text after the last
    separator, the whole text when there is none. *)
Fixpoint last_segment (sep : ascii) (s : string) : string :=
  match s with
  | EmptyString => EmptyString
  | String c s' =>
      if contains (String sep EmptyString) s'
      then last_segment sep s'
      else if Ascii.eqb c sep then s' else s
  end.

(** The longest prefix of digits, the greedy [\d*]. *)
Fixpoint take_digits (s : string) : string :=
  match s with
  | String c s' => if is_digit c then String c (take_digits s') else EmptyString
  | EmptyString => EmptyString
  end.

(** [f"{i}"] for an integer. *)
Definition of_Z (z : Z) : string := NilZero.string_of_int (Z.to_int z).

(** [f.readlines()] of a file opened in text mode: the line ends CR LF and
    CR are read as LF, and every line keeps its LF. *)
Fixpoint readlines_from (cur s : string) : list string :=
  match s with
  | EmptyString => match cur with EmptyString => [] | _ => [cur] end
  | String c s' =>
      if Ascii.eqb c (ascii_of_nat 10) then (cur ++ nl) :: readlines_from "" s'
      else if Ascii.eqb c (ascii_of_nat 13) then
        match s' with
        | String c' s'' =>
            if Ascii.eqb c' (ascii_of_nat 10)
            then (cur ++ nl) :: readlines_from "" s''
            else (cur ++ nl) :: readlines_from "" s'
        | EmptyString => [cur ++ nl]
        end
      else readlines_from (cur ++ String c EmptyString) s'
  end.

Definition readlines (s : string) : list string := readlines_from "" s.

(** No line end occurs in [s]. *)
Fixpoint line_free (s : string) : bool :=
  match s with
  | EmptyString => true
  | String c s' =>
      negb (Ascii.eqb c (ascii_of_nat 10)) && negb (Ascii.eqb c (ascii_of_nat 13))
      && line_free s'
  end.

End PyStr.

(** [int(s)] on text: white space around the number is dropped, one sign
    is allowed, and single underscores may separate digits.  [None] stands
    for [ValueError]. *)
Module PyInt.

Fixpoint digits_value (acc : Z) (after_digit : bool) (s : string) : option Z :=
  match s with
  | EmptyString => if after_digit then Some acc else None
  | String c s' =>
      if PyStr.is_digit c
      then digits_value (10 * acc + (Z.of_nat (nat_of_ascii c) - 48)) true s'
      else if Ascii.eqb c "_"
           then (if after_digit then digits_value acc false s' else None)
           else None
  end.

Definition int (s : string) : option Z :=
  match PyStr.strip s with
  | String "+" r => digits_value 0 false r
  | String "-" r => option_map Z.opp (digits_value 0 false r)
  | t => digits_value 0 false t
  end.

End PyInt.

(** ** Taxonomy filter *)

(** [ALLOWED_CWE_IDS], a set of digit strings. *)
Definition ALLOWED_CWE_IDS : list string :=
  [ "326"; "327"; "328"; "347"; "329"; "1204"; "1240"; "780"; "757";
    "330"; "331"; "332"; "334"; "335"; "336"; "337"; "338"; "339"; "1241";
    "321"; "322"; "323"; "324"; "798";
    "295"; "296"; "297"; "298"; "299"; "370"; "599";
    "319"; "523"; "1428"; "614"; "1004"; "311"; "312"; "313"; "315"; "316";
    "317"; "318";
    "759"; "760"; "916" ].

(** [g in ALLOWED_CWE_IDS] *)
Definition in_allowed (g : string) : bool :=
  existsb (String.eqb g) ALLOWED_CWE_IDS.

(** A match of [CWE-(\d+)] that starts at the first character of [t]:
    its group 1, the longest run of digits after the prefix. *)
Definition match_cwe_here (t : string) : option string :=
  if PyStr.startswith "CWE-" t
  then match PyStr.take_digits (PyStr.drop 4 t) with
       | EmptyString => None
       | ds => Some ds
       end
  else None.

(** [re.search(r"CWE-(\d+)", t)]: group 1 of the leftmost match. *)
Fixpoint re_search_cwe (t : string) : option string :=
  match match_cwe_here t with
  | Some g => Some g
  | None =>
      match t with
      | EmptyString => None
      | String _ t' => re_search_cwe t'
      end
  end.

Fixpoint has_allowed_cwe (cwe_texts : list string) : bool :=
  match cwe_texts with
  | [] => false
  | t :: rest =>
      match re_search_cwe t with
      | Some g => if in_allowed g then true else has_allowed_cwe rest
      | None => has_allowed_cwe rest
      end
  end.

(** ** Parsed documents

    What [BeautifulSoup(data, "html.parser")] builds: a tree of tags and
    text.  A tag carries its name, the values of its [class] attribute
    (bs4 keeps them as a list), its other attributes and its children.
    The document itself is the root tag. *)

#[warnings="-register-all"]
Inductive node : Type :=
| Text (s : string)
| Tag (name : string) (classes : list string)
      (attrs : list (string * string)) (children : list node).

Definition soup := node.

Module Bs4.

(** All nodes below [n], in document order. *)
Fixpoint descendants (n : node) : list node :=
  match n with
  | Text _ => []
  | Tag _ _ _ cs => flat_map (fun c => c :: descendants c) cs
  end.

(** [n.text] *)
Fixpoint text (n : node) : string :=
  match n with
  | Text s => s
  | Tag _ _ _ cs => String.concat "" (map text cs)
  end.

Definition has_name (nm : string) (n : node) : bool :=
  match n with
  | Tag nm' _ _ _ => String.eqb nm nm'
  | Text _ => false
  end.

(** [class_=c]: some class of the tag is [c], or the whole class value
    is [c] (the only way a [c] with a space in it can match). *)
Definition has_class (c : string) (n : node) : bool :=
  match n with
  | Tag _ cls _ _ =>
      existsb (String.eqb c) cls || String.eqb (String.concat " " cls) c
  | Text _ => false
  end.

Fixpoint assoc (k : string) (l : list (string * string)) : option string :=
  match l with
  | [] => None
  | (k', v) :: l' => if String.eqb k k' then Some v else assoc k l'
  end.

(** [n.get(k)] *)
Definition get (k : string) (n : node) : option string :=
  match n with
  | Tag _ _ at_ _ => assoc k at_
  | Text _ => None
  end.

(** [n.find_all(nm)] *)
Definition find_all (nm : string) (n : node) : list node :=
  filter (has_name nm) (descendants n).

(** [n.find_all(nm, class_=c)] *)
Definition find_all_class (nm c : string) (n : node) : list node :=
  filter (fun d => has_name nm d && has_class c d) (descendants n).

(** [n.find_all("a", href=True)] *)
Definition find_all_href (n : node) : list node :=
  filter (fun d => has_name "a" d &&
                   match get "href" d with Some _ => true | None => false end)
         (descendants n).

(** [n.find_all("a", href=re.compile("^" + p))] *)
Definition find_all_href_prefix (p : string) (n : node) : list node :=
  filter (fun d => has_name "a" d &&
                   match get "href" d with
                   | Some h => PyStr.startswith p h
                   | None => false
                   end)
         (descendants n).

(** [n.find(nm)] *)
Definition find (nm : string) (n : node) : option node :=
  hd_error (find_all nm n).

(** [n.find(nm, class_=c)] *)
Definition find_class (nm c : string) (n : node) : option node :=
  hd_error (find_all_class nm c n).

End Bs4.

(** ** The fetch primitive *)

(** What [urlopen] followed by the parse does at one attempt. *)
Inductive response : Type :=
| Fetched (doc : soup)
| HTTPError (code : Z)
| URLError
| OtherException.

(** A call returns a value or lets an exception escape. *)
Inductive outcome (A : Type) : Type :=
| Returned (a : A)
| Raised.
Arguments Returned {A} a.
Arguments Raised {A}.

(** One value of [random.random()], a number of the unit interval. *)
Record unit_draw : Type := {
  draw : Q;
  draw_lo : (0 <= draw)%Q;
  draw_hi : (draw <= 1)%Q
}.

(** [random.uniform(a, b)] *)
Definition uniform (a b : Q) (u : unit_draw) : Q := (a + (b - a) * draw u)%Q.

(** The [Referer] header that [_build_headers] sets. *)
Definition referer_header (referer : option string) : string :=
  match referer with
  | Some (String c r) => String c r
  | _ => "https://www.mend.io/vulnerability-database/"
  end.

(** [base_delay * (2 ** attempt)], the delay of a 403/429 without its jitter. *)
Definition backoff (base_delay : Q) (attempt : nat) : Q :=
  (base_delay * inject_Z (2 ^ Z.of_nat attempt))%Q.

Definition rate_limited (r : response) : bool :=
  match r with
  | HTTPError code => (code =? 403)%Z || (code =? 429)%Z
  | _ => false
  end.

Section Fetcher.

(** The remote side: what attempt number [attempt] of a call for [url]
    sent with a given [Referer] is answered with.  The answer does not
    depend on the [User-Agent] that [_build_headers] draws, nor on the
    time of the call. *)
Variable network : string -> string -> nat -> response.
(** The random number drawn while handling attempt number [attempt]. *)
Variable rng : nat -> unit_draw.

(** The delay slept after a failed attempt. *)
Definition retry_delay (base_delay : Q) (attempt : nat) (r : response) : Q :=
  match r with
  | HTTPError code =>
      if (code =? 403)%Z || (code =? 429)%Z
      then (backoff base_delay attempt + uniform (1#4) (9#20) (rng attempt))%Q
      else (inject_Z (Z.of_nat attempt) * (1#5))%Q
  | URLError => (base_delay + inject_Z (Z.of_nat attempt))%Q
  | _ => (1#5)%Q
  end.

(** The [for attempt in range(max_retries)] loop from [attempt] on, with
    [remaining] attempts left.  [time.sleep] raises [ValueError] on a
    negative delay, inside a handler, so that exception escapes.  The
    delays slept are collected in order. *)
Fixpoint get_soup_loop (url referer : string) (base_delay : Q)
         (remaining attempt : nat) (slept : list Q)
  : outcome (option soup) * list Q :=
  match remaining with
  | O => (Returned None, slept)
  | S remaining' =>
      match network url referer attempt with
      | Fetched doc => (Returned (Some doc), slept)
      | r =>
          let sleep_s := retry_delay base_delay attempt r in
          if Qle_bool 0 sleep_s
          then get_soup_loop url referer base_delay remaining' (S attempt)
                             (slept ++ [sleep_s])
          else (Raised, slept)
      end
  end.

Definition get_soup (url : string) (referer : option string)
           (max_retries : Z) (base_delay : Q)
  : outcome (option soup) * list Q :=
  get_soup_loop url (referer_header referer) base_delay
                (Z.to_nat max_retries) 0 [].

(** [get_soup(url, referer=referer)], with the default retry settings. *)
Definition get_soup_default (url : string) (referer : option string)
  : outcome (option soup) :=
  fst (get_soup url referer 5 (1#2)).

End Fetcher.

(** ** Records *)

(** The dictionary [one_res]; the eight metric keys are [AV] to [A]. *)
Record one_res : Type := {
  q_id : nat;
  cve_id : string;
  language : option string;
  date : option string;
  resources : list string;
  CWEs : list string;
  cvss : option string;
  description : option string;
  m_AV : option string;
  m_AC : option string;
  m_PR : option string;
  m_UI : option string;
  m_S : option string;
  m_C : option string;
  m_I : option string;
  m_A : option string
}.

Inductive metric : Type := AV | AC | PR | UI | Sc | Cf | Ig | Av.

(** The [if]/[elif] chain over the row label. *)
Definition metric_of_label (th : string) : option metric :=
  if PyStr.contains "Attack Vector" th then Some AV
  else if PyStr.contains "Attack Complexity" th then Some AC
  else if PyStr.contains "Privileges Required" th then Some PR
  else if PyStr.contains "User Interaction" th then Some UI
  else if PyStr.contains "Scope" th then Some Sc
  else if PyStr.contains "Confidentiality" th then Some Cf
  else if PyStr.contains "Integrity" th then Some Ig
  else if PyStr.contains "Availability" th then Some Av
  else None.

Definition set_metric (m : metric) (td : string) (r : one_res) : one_res :=
  let v := Some td in
  {| q_id := q_id r; cve_id := cve_id r; language := language r;
     date := date r; resources := resources r; CWEs := CWEs r;
     cvss := cvss r; description := description r;
     m_AV := match m with AV => v | _ => m_AV r end;
     m_AC := match m with AC => v | _ => m_AC r end;
     m_PR := match m with PR => v | _ => m_PR r end;
     m_UI := match m with UI => v | _ => m_UI r end;
     m_S := match m with Sc => v | _ => m_S r end;
     m_C := match m with Cf => v | _ => m_C r end;
     m_I := match m with Ig => v | _ => m_I r end;
     m_A := match m with Av => v | _ => m_A r end |}.

(** The dictionary as [step_one] creates it for link number [i]. *)
Definition fresh_one_res (i : nat) (id : string) : one_res :=
  {| q_id := i; cve_id := id; language := None; date := None;
     resources := []; CWEs := []; cvss := None; description := None;
     m_AV := None; m_AC := None; m_PR := None; m_UI := None;
     m_S := None; m_C := None; m_I := None; m_A := None |}.

(** ** Extraction of one item *)

Module Extract.

(** The loop over the [h4] headings: a later heading overwrites an
    earlier one. *)
Definition headings (doc : soup) : option string * option string :=
  fold_left
    (fun (dl : option string * option string) (tag : node) =>
       let (date, language) := dl in
       if PyStr.contains "Date:" (Bs4.text tag)
       then (Some (PyStr.strip (PyStr.replace "Date:" ""
                                  (PyStr.strip (Bs4.text tag)))), language)
       else if PyStr.contains "Language:" (Bs4.text tag)
       then (date, Some (PyStr.strip (PyStr.replace "Language:" ""
                                        (PyStr.strip (Bs4.text tag)))))
       else (date, language))
    (Bs4.find_all "h4" doc) (None, None).

Definition description_of (doc : soup) : option string :=
  let desc_div :=
    match Bs4.find_class "div" "single-vuln-desc no-good-to-know" doc with
    | Some d => Some d
    | None => Bs4.find_class "div" "single-vuln-desc" doc
    end in
  match desc_div with
  | Some d =>
      match Bs4.find "p" d with
      | Some desc => Some (PyStr.strip (Bs4.text desc))
      | None => None
      end
  | None => None
  end.

Definition href_of (link : node) : string :=
  match Bs4.get "href" link with Some h => h | None => "" end.

Definition reference_links (doc : soup) : list string :=
  flat_map (fun div => map href_of (Bs4.find_all_href div))
           (Bs4.find_all_class "div" "reference-row" doc).

Definition severity_score (doc : soup) : string :=
  match Bs4.find_class "div" "ranger-value" doc with
  | Some div_score =>
      match Bs4.find "label" div_score with
      | Some label => PyStr.strip (Bs4.text label)
      | None => ""
      end
  | None => ""
  end.

(** The loop over the rows of the metrics table.  [tr.find("th")] and
    [tr.find("td")] are used without a test: on a row without such a
    cell the attribute access raises, here [None]. *)
Fixpoint metric_rows (rows : list node) (r : one_res) : option one_res :=
  match rows with
  | [] => Some r
  | tr :: rest =>
      match Bs4.find "th" tr with
      | None => None
      | Some th_tag =>
          match Bs4.find "td" tr with
          | None => None
          | Some td_tag =>
              let th := PyStr.strip (Bs4.text th_tag) in
              let td := PyStr.strip (Bs4.text td_tag) in
              match metric_of_label th with
              | Some m => metric_rows rest (set_metric m td r)
              | None => metric_rows rest r
              end
          end
      end
  end.

Definition cwe_numbers (doc : soup) : list string :=
  flat_map (fun div =>
              map Bs4.text
                  (filter (fun link => PyStr.contains "CWE" (Bs4.text link))
                          (Bs4.find_all_href div)))
           (Bs4.find_all_class "div" "light-box" doc).

(** The body of the item loop from the headings to the tag container:
    the filled dictionary, or [None] when an exception was raised. *)
Definition extract (doc : soup) (r0 : one_res) : option one_res :=
  let (date_, language_) := headings doc in
  let r1 :=
    {| q_id := q_id r0; cve_id := cve_id r0;
       language := language_; date := date_;
       resources := reference_links doc; CWEs := CWEs r0;
       cvss := Some (severity_score doc);
       description := match description_of doc with
                      | Some d => Some d
                      | None => description r0
                      end;
       m_AV := m_AV r0; m_AC := m_AC r0; m_PR := m_PR r0; m_UI := m_UI r0;
       m_S := m_S r0; m_C := m_C r0; m_I := m_I r0; m_A := m_A r0 |} in
  let with_metrics :=
    match Bs4.find_class "table" "table table-report" doc with
    | Some table => metric_rows (Bs4.find_all "tr" table) r1
    | None => Some r1
    end in
  match with_metrics with
  | None => None
  | Some r2 =>
      Some {| q_id := q_id r2; cve_id := cve_id r2;
              language := language r2; date := date r2;
              resources := resources r2; CWEs := cwe_numbers doc;
              cvss := cvss r2; description := description r2;
              m_AV := m_AV r2; m_AC := m_AC r2; m_PR := m_PR r2;
              m_UI := m_UI r2; m_S := m_S r2; m_C := m_C r2;
              m_I := m_I r2; m_A := m_A r2 |}
  end.

End Extract.

(** Python truth of the values tested before a record is written. *)
Definition truthy_str (s : string) : bool :=
  match s with EmptyString => false | _ => true end.
Definition truthy_opt (o : option string) : bool :=
  match o with Some s => truthy_str s | None => false end.
Definition truthy_list {A : Type} (l : list A) : bool :=
  match l with [] => false | _ => true end.
Definition is_not_None {A : Type} (o : option A) : bool :=
  match o with Some _ => true | None => false end.

(** The condition under which a filtered record is written. *)
Definition complete (r : one_res) : bool :=
  truthy_str (cve_id r) && truthy_opt (language r) && truthy_opt (date r)
  && truthy_list (resources r) && truthy_list (CWEs r)
  && is_not_None (cvss r).

(** ** Artifacts of one bucket *)

(** A JSON value as [json.loads] returns it. *)
#[warnings="-register-all"]
Inductive json : Type :=
| JNull
| JBool (b : bool)
| JNum (n : Z)
| JStr (s : string)
| JArr (items : list json)
| JObj (members : list (string * json)).

(** One entry of [fetchs]. *)
Record patch : Type := {
  p_url : json;
  p_html_url : json;
  p_message : json;
  p_files : json;
  p_commit_id : json;
  p_commit_date : json
}.

(** The files of one bucket; [None] is a file that does not exist.  The
    link log and the error ledger are kept as their text.  A line of the
    record artifact is kept as the dictionary it was dumped from, and the
    enrichment artifact as the list that was dumped. *)
Record files : Type := {
  dirs : list string;
  log_file : option string;       (* logs/{YM}.log *)
  res_file : option (list one_res);   (* results/{YM}.jsonl *)
  patch_file : option (list patch);   (* crawl_result/{YM}_patch.jsonl *)
  error_file : option string      (* crawl_result/{YM}_patch_error.txt *)
}.

Definition makedirs (p : string) (ds : list string) : list string :=
  if existsb (String.eqb p) ds then ds else (ds ++ [p])%list.

Definition ensure_dirs (paths : list string) (fs : files) : files :=
  {| dirs := fold_left (fun ds p => makedirs p ds) paths (dirs fs);
     log_file := log_file fs; res_file := res_file fs;
     patch_file := patch_file fs; error_file := error_file fs |}.

Definition write_log (content : string) (fs : files) : files :=
  {| dirs := dirs fs; log_file := Some content; res_file := res_file fs;
     patch_file := patch_file fs; error_file := error_file fs |}.

(** [open(res_filename, "a")] and one written line. *)
Definition append_res (r : one_res) (fs : files) : files :=
  {| dirs := dirs fs; log_file := log_file fs;
     res_file := Some (match res_file fs with
                       | Some rs => (rs ++ [r])%list
                       | None => [r]
                       end);
     patch_file := patch_file fs; error_file := error_file fs |}.

Definition write_patch_and_errors (fetchs : list patch) (errors : string)
           (fs : files) : files :=
  {| dirs := dirs fs; log_file := log_file fs; res_file := res_file fs;
     patch_file := Some fetchs; error_file := Some errors |}.

(** The text written by a loop of [f.write(x + "\n")]. *)
Fixpoint lines_text (xs : list string) : string :=
  match xs with
  | [] => ""
  | x :: rest => (x ++ PyStr.nl) ++ lines_text rest
  end.

(** What a run does to the outside, in order. *)
Inductive event : Type :=
| EvFetchPage (page : nat) (url : string)
| EvWriteLog (content : string)
| EvFetchItem (i : nat) (url : string)
| EvAppend (r : one_res).

Record run : Type := {
  raised : bool;          (* an exception left the function *)
  fs_after : files;
  trace : list event
}.

(** ** Stage one *)

Definition prefix : string := "https://www.mend.io".

Definition listing_url (Year Month : string) : string :=
  "https://www.mend.io/vulnerability-database/full-listing/"
    ++ Year ++ "/" ++ Month.

Definition page_url (Year Month : string) (i : nat) : string :=
  listing_url Year Month ++ "/" ++ PyStr.of_Z (Z.of_nat i).

(** [l[-2]], [None] for [IndexError]. *)
Definition second_to_last {A : Type} (l : list A) : option A :=
  match rev l with
  | _ :: x :: _ => Some x
  | _ => None
  end.

(** The [try] around the pagination control, with 1 in its handler. *)
Definition max_pagenumber (doc : soup) : Z :=
  match second_to_last (Bs4.find_all_class "li" "vuln-pagination-item" doc) with
  | Some li =>
      match PyInt.int (PyStr.strip (Bs4.text li)) with
      | Some n => n
      | None => 1%Z
      end
  | None => 1%Z
  end.

(** The pairs appended to [links] for one listing page. *)
Definition page_links (doc : soup) : list (string * string) :=
  map (fun link => (Bs4.text link, Extract.href_of link))
      (Bs4.find_all_href_prefix "/vulnerability-database/CVE" doc).

(** [range(2, max_pagenumber + 1)] when [max_pagenumber > 1]. *)
Definition later_pages (max_page : Z) : list nat :=
  if (1 <? max_page)%Z then seq 2 (Z.to_nat max_page - 1) else [].

(** The cursor read from the record artifact. *)
Definition already_query_qid (fs : files) : nat :=
  match res_file fs with
  | Some queried =>
      match rev queried with
      | last_ :: _ => q_id last_
      | [] => 0
      end
  | None => 0
  end.

Section StageOne.

Variable network : string -> string -> nat -> response.
Variable rng : nat -> unit_draw.
Variables Year Month : string.

#[local] Abbreviation fetch := (get_soup_default network rng).

(** The loop over pages 2 to the last: the links so far and the trace,
    or an escaping exception. *)
Fixpoint pages_loop (pages : list nat) (links : list (string * string))
         (tr : list event) : outcome (list (string * string)) * list event :=
  match pages with
  | [] => (Returned links, tr)
  | i :: rest =>
      let url := page_url Year Month i in
      let tr' := (tr ++ [EvFetchPage i url])%list in
      match fetch url (Some (listing_url Year Month)) with
      | Raised => (Raised, tr')
      | Returned None => pages_loop rest links tr'
      | Returned (Some doc) => pages_loop rest (links ++ page_links doc)%list tr'
      end
  end.

(** One turn of the item loop, with its [try]/[except Exception]. *)
Definition process_item (already i : nat) (line : string)
           (st : files * list event) : files * list event :=
  let (fs, tr) := st in
  let r0 := fresh_one_res i (PyStr.last_segment "/" (PyStr.strip line)) in
  if (i <=? already)%nat then st
  else
    let fullweb_url := prefix ++ PyStr.strip line in
    let tr' := (tr ++ [EvFetchItem i fullweb_url])%list in
    match fetch fullweb_url (Some (prefix ++ "/vulnerability-database/")) with
    | Raised => (fs, tr')
    | Returned None => (fs, tr')
    | Returned (Some doc) =>
        match Extract.extract doc r0 with
        | None => (fs, tr')
        | Some r =>
            if negb (has_allowed_cwe (CWEs r)) then (fs, tr')
            else if complete r
                 then (append_res r fs, (tr' ++ [EvAppend r])%list)
                 else (fs, tr')
        end
    end.

(** [for i in trange(len(content))] from index [i] on. *)
Fixpoint items_loop (already i : nat) (content : list string)
         (st : files * list event) : files * list event :=
  match content with
  | [] => st
  | line :: rest =>
      items_loop already (S i) rest (process_item already i line st)
  end.

(** Everything after the listing walk: read the log, read the cursor,
    run the item loop. *)
Definition crawl_items (st : files * list event) : run :=
  let (fs, tr) := st in
  match log_file fs with
  | None => {| raised := true; fs_after := fs; trace := tr |}
  | Some text =>
      let content := PyStr.readlines text in
      let st' := items_loop (already_query_qid fs) 0 content (fs, tr) in
      {| raised := false; fs_after := fst st'; trace := snd st' |}
  end.

Definition step_one (fs0 : files) : run :=
  let fs := ensure_dirs ["logs"; "results"] fs0 in
  match log_file fs with
  | Some _ => crawl_items (fs, [])
  | None =>
      let url := listing_url Year Month in
      let tr := [EvFetchPage 1 url] in
      match fetch url None with
      | Raised => {| raised := true; fs_after := fs; trace := tr |}
      | Returned None => {| raised := false; fs_after := fs; trace := tr |}
      | Returned (Some doc) =>
          match pages_loop (later_pages (max_pagenumber doc))
                           (page_links doc) tr with
          | (Raised, tr') => {| raised := true; fs_after := fs; trace := tr' |}
          | (Returned links, tr') =>
              let content := lines_text (map snd links) in
              crawl_items (write_log content fs, (tr' ++ [EvWriteLog content])%list)
          end
      end
  end.

End StageOne.

(** ** Stage two *)

(** What the [curl] call followed by [json.loads] does for one query. *)
Inductive api_reply : Type :=
| CallFails                 (* an [Exception]: bad exit status, bad JSON *)
| Interrupted               (* an exception that is not an [Exception] *)
| Parsed (data : json).

Module PyJson.

Fixpoint lookup (k : string) (members : list (string * json)) : option json :=
  match members with
  | [] => None
  | (k', v) :: rest => if String.eqb k k' then Some v else lookup k rest
  end.

(** [k in data]; [None] for the [TypeError] of a value that has no
    membership test. *)
Definition contains_key (k : string) (data : json) : option bool :=
  match data with
  | JObj members => Some (is_not_None (lookup k members))
  | JArr items =>
      Some (existsb (fun x => match x with
                              | JStr s => String.eqb s k
                              | _ => false
                              end) items)
  | JStr s => Some (PyStr.contains k s)
  | _ => None
  end.

(** [all(k in data for k in keys)], which stops at the first [False]. *)
Fixpoint all_keys (keys : list string) (data : json) : option bool :=
  match keys with
  | [] => Some true
  | k :: rest =>
      match contains_key k data with
      | None => None
      | Some false => Some false
      | Some true => all_keys rest data
      end
  end.

(** [data[k]] with a string [k]; [None] for [KeyError] and [TypeError]. *)
Definition subscript (data : json) (k : string) : option json :=
  match data with
  | JObj members => lookup k members
  | _ => None
  end.

End PyJson.

Definition bind {A B : Type} (o : option A) (f : A -> option B) : option B :=
  match o with Some a => f a | None => None end.

Notation "x <- e ;; k" := (bind e (fun x => k))
  (at level 61, e at next level, right associativity).

(** The dictionary appended to [fetchs]; its values are evaluated in the
    order written, and the first failing subscript raises. *)
Definition make_patch (data : json) : option patch :=
  url <- PyJson.subscript data "url" ;;
  html_url <- PyJson.subscript data "html_url" ;;
  commit <- PyJson.subscript data "commit" ;;
  message <- PyJson.subscript commit "message" ;;
  files_ <- PyJson.subscript data "files" ;;
  sha <- PyJson.subscript data "sha" ;;
  commit' <- PyJson.subscript data "commit" ;;
  committer <- PyJson.subscript commit' "committer" ;;
  date_ <- PyJson.subscript committer "date" ;;
  Some {| p_url := url; p_html_url := html_url; p_message := message;
          p_files := files_; p_commit_id := sha; p_commit_date := date_ |}.

(** The rewriting of a reference link into a query. *)
Definition to_query (res : string) : string :=
  PyStr.replace "https://github.com/" "https://api.github.com/repos/"
                (PyStr.replace "/commit/" "/commits/" res).

Definition querys_of (CVES : list one_res) : list string :=
  flat_map (fun CVE =>
              map to_query
                  (filter (fun res => PyStr.contains "commit" res
                                      && PyStr.contains "github" res)
                          (resources CVE)))
           CVES.

Section StageTwo.

Variable api : string -> api_reply.

(** The loop over [querys]; the flag tells whether an exception left it. *)
Fixpoint query_loop (querys : list string) (fetchs : list patch)
         (errors : list string) : bool * list patch * list string :=
  match querys with
  | [] => (false, fetchs, errors)
  | query :: rest =>
      match api query with
      | CallFails => query_loop rest fetchs errors
      | Interrupted => (true, fetchs, errors)
      | Parsed data =>
          match PyJson.all_keys ["url"; "html_url"; "commit"; "files"] data with
          | None => (true, fetchs, errors)
          | Some true =>
              match make_patch data with
              | Some p => query_loop rest (fetchs ++ [p])%list errors
              | None => (true, fetchs, errors)
              end
          | Some false => query_loop rest fetchs (errors ++ [query])%list
          end
      end
  end.

(** The exception flag and the files after the call. *)
Definition step_two (fs0 : files) : bool * files :=
  let fs := ensure_dirs ["crawl_result"] fs0 in
  match res_file fs with
  | None => (false, fs)
  | Some CVES =>
      let '(exc, fetchs, errors) := query_loop (querys_of CVES) [] [] in
      (exc, write_patch_and_errors fetchs (lines_text errors) fs)
  end.

End StageTwo.

(** ** Observations on runs *)

(** The records a run appended, in order. *)
Definition appended (tr : list event) : list one_res :=
  flat_map (fun e => match e with EvAppend r => [r] | _ => [] end) tr.

(** The item fetches of a run, in order. *)
Definition item_fetches (tr : list event) : list (nat * string) :=
  flat_map (fun e => match e with EvFetchItem i u => [(i, u)] | _ => [] end) tr.

(** The number of times a run wrote the link log. *)
Definition log_writes (tr : list event) : nat :=
  length (filter (fun e => match e with EvWriteLog _ => true | _ => false end) tr).

(** The records of the record artifact, none when it does not exist. *)
Definition records (fs : files) : list one_res :=
  match res_file fs with Some rs => rs | None => [] end.

(** The link-log index an event of the item loop belongs to. *)
Definition event_index (e : event) : option nat :=
  match e with
  | EvFetchItem i _ => Some i
  | EvAppend r => Some (q_id r)
  | _ => None
  end.

Definition index_above (k : nat) (e : event) : bool :=
  match event_index e with Some i => (k <? i)%nat | None => false end.

Definition without_res (fs : files) : files :=
  {| dirs := dirs fs; log_file := log_file fs; res_file := None;
     patch_file := patch_file fs; error_file := error_file fs |}.

(** ** The statements of the specification *)

Module Spec.

(** A classification code contains the numeric tag [g]: the tag prefix
    followed by the digits [g], which are not followed by a digit. *)
Definition digits (g : string) : Prop :=
  g <> "" /\ forall c, In c (list_ascii_of_string g) -> PyStr.is_digit c = true.

Definition no_digit_first (s : string) : Prop :=
  match s with
  | String c _ => PyStr.is_digit c = false
  | EmptyString => True
  end.

Definition contains_tag (t g : string) : Prop :=
  exists pre post, t = pre ++ "CWE-" ++ g ++ post /\ digits g /\ no_digit_first post.

(** [passes(codes)]: some code contains a numeric tag of the allow-set. *)
Definition passes (codes : list string) : Prop :=
  exists t g, In t codes /\ contains_tag t g /\ In g ALLOWED_CWE_IDS.

(** The tag that the leftmost occurrence of the prefix format gives. *)
Definition first_tag (t g : string) : Prop :=
  exists pre post,
    t = pre ++ "CWE-" ++ g ++ post /\ digits g /\ no_digit_first post /\
    forall pre' rest, t = pre' ++ rest ->
                      String.length pre' < String.length pre ->
                      match_cwe_here rest = None.

(** A field is present when it was extracted and is not empty; the
    severity score only has to be there. *)
Definition present (o : option string) : Prop :=
  exists s, o = Some s /\ s <> "".

Definition persistable (r : one_res) : Prop :=
  cve_id r <> "" /\ present (language r) /\ present (date r) /\
  resources r <> [] /\ CWEs r <> [] /\ cvss r <> None.

(** The listing walk of a bucket without link log writes the log, one
    time, as lines. *)
Definition walk_writes_log
           (network : string -> string -> nat -> response)
           (rng : nat -> unit_draw) (Year Month : string) (fs : files) : Prop :=
  log_file fs = None ->
  let r := step_one network rng Year Month fs in
  log_writes (trace r) = 1 /\
  exists links, log_file (fs_after r) = Some (lines_text links).

End Spec.

(** ** Concrete surroundings *)

Definition zero_draw : unit_draw :=
  {| draw := 0; draw_lo := Qle_refl 0; draw_hi := Z.le_0_1 |}.

(** A server that answers every request with 429. *)
Definition always_429 (url referer : string) (attempt : nat) : response :=
  HTTPError 429.

Definition no_files : files :=
  {| dirs := []; log_file := None; res_file := None;
     patch_file := None; error_file := None |}.

(** ** The item loop, turn by turn *)

Definition append_all (rs : list one_res) (fs : files) : files :=
  fold_left (fun f r => append_res r f) rs fs.

Section Turns.

Variable network : string -> string -> nat -> response.
Variable rng : nat -> unit_draw.
Variables Year Month : string.

(** The record that the turn for link [i] writes when the link is not
    skipped, if it writes one. *)
Definition item_record (i : nat) (line : string) : option one_res :=
  match get_soup_default network rng (prefix ++ PyStr.strip line)
                         (Some (prefix ++ "/vulnerability-database/")) with
  | Returned (Some doc) =>
      match Extract.extract doc
              (fresh_one_res i (PyStr.last_segment "/" (PyStr.strip line))) with
      | Some r => if has_allowed_cwe (CWEs r) && complete r then Some r else None
      | None => None
      end
  | _ => None
  end.

Definition item_events (i : nat) (line : string) : list event :=
  EvFetchItem i (prefix ++ PyStr.strip line)
  :: match item_record i line with Some r => [EvAppend r] | None => [] end.

(** The events of the item loop from index [i] on under the cursor
    [already]. *)
Fixpoint loop_events (already i : nat) (content : list string) : list event :=
  match content with
  | [] => []
  | line :: rest =>
      ((if (i <=? already)%nat then [] else item_events i line)
       ++ loop_events already (S i) rest)%list
  end.

(** The links that the page with number [i] adds: none when its fetch
    failed. *)
Definition page_result (i : nat) : list (string * string) :=
  match get_soup_default network rng (page_url Year Month i)
                         (Some (listing_url Year Month)) with
  | Returned (Some doc) => page_links doc
  | _ => []
  end.

(** The links of a listing whose first page is [doc], in the order of
    discovery. *)
Definition walk_links (doc : soup) : list string :=
  map snd (page_links doc ++ flat_map page_result
                                      (later_pages (max_pagenumber doc)))%list.

End Turns.

(** ** A bucket with a listing of two pages

    Page 1 lists the items A and B, page 2 lists the item C.  A carries
    the allowed code CWE-798, B carries CWE-79 only, and the detail page
    of C is answered with 429 at every attempt. *)

Module Scenario.

Definition document (children : list node) : soup :=
  Tag "[document]" [] [] children.

Definition elem (name : string) (children : list node) : node :=
  Tag name [] [] children.

Definition div (class : string) (children : list node) : node :=
  Tag "div" [class] [] children.

Definition anchor (href text : string) : node :=
  Tag "a" [] [("href", href)] [Text text].

Definition page_item (text : string) : node :=
  Tag "li" ["vuln-pagination-item"] [] [Text text].

Definition link_A : string := "/vulnerability-database/CVE-2024-0001".
Definition link_B : string := "/vulnerability-database/CVE-2024-0002".
Definition link_C : string := "/vulnerability-database/CVE-2024-0003".

Definition page_1 : soup :=
  document [ elem "ul" [page_item "1"; page_item "2"; page_item "Next"];
             anchor link_A "CVE-2024-0001"; anchor link_B "CVE-2024-0002" ].

Definition page_2 : soup :=
  document [ elem "ul" [page_item "1"; page_item "2"; page_item "Next"];
             anchor link_C "CVE-2024-0003" ].

Definition metrics_table (rows : list node) : node :=
  Tag "table" ["table"; "table-report"] [] rows.

(** A detail page with every landmark and the classification code [cwe]. *)
Definition detail (cwe : string) (rows : list node) : soup :=
  document [ elem "h4" [Text "Date: Jan 5, 2024"];
             elem "h4" [Text "Language: Python"];
             div "single-vuln-desc" [elem "p" [Text " Hard-coded key. "]];
             div "reference-row"
                 [anchor "https://github.com/o/r/commit/abc123" "fix"];
             div "ranger-value" [elem "label" [Text "7.5"]];
             metrics_table rows;
             div "light-box" [anchor "/cwe" cwe] ].

Definition good_row : node :=
  elem "tr" [elem "th" [Text "Attack Vector"]; elem "td" [Text "Network"]].

(** A row of the metrics table that has no [th] cell. *)
Definition bare_row : node := elem "tr" [elem "td" [Text "Network"]].

Definition detail_A : soup := detail "CWE-798" [good_row].
Definition detail_B : soup := detail "CWE-79" [good_row].

Definition network (url referer : string) (attempt : nat) : response :=
  if String.eqb url (listing_url "2024" "1") then Fetched page_1
  else if String.eqb url (page_url "2024" "1" 2) then Fetched page_2
  else if String.eqb url (prefix ++ link_A) then Fetched detail_A
  else if String.eqb url (prefix ++ link_B) then Fetched detail_B
  else HTTPError 429.

Definition rng (attempt : nat) : unit_draw := zero_draw.

(** The record that the detail page of A gives at index [i]. *)
Definition record_A (i : nat) : one_res :=
  {| q_id := i; cve_id := "CVE-2024-0001";
     language := Some "Python"; date := Some "Jan 5, 2024";
     resources := ["https://github.com/o/r/commit/abc123"];
     CWEs := ["CWE-798"]; cvss := Some "7.5";
     description := Some "Hard-coded key.";
     m_AV := Some "Network"; m_AC := None; m_PR := None; m_UI := None;
     m_S := None; m_C := None; m_I := None; m_A := None |}.

End Scenario.

(** ** The query loop, turn by turn *)

(** What one turn of the query loop does. *)
Inductive turn : Type :=
| Success (p : patch)     (* an entry is added to [fetchs] *)
| DataNull                (* the query is added to [errors] *)
| Failed                  (* the handler of the inner [try] ran *)
| Abort.                  (* an exception left the loop *)

Section Queries.

Variable api : string -> api_reply.

Definition turn_of (query : string) : turn :=
  match api query with
  | CallFails => Failed
  | Interrupted => Abort
  | Parsed data =>
      match PyJson.all_keys ["url"; "html_url"; "commit"; "files"] data with
      | None => Abort
      | Some true =>
          match make_patch data with
          | Some p => Success p
          | None => Abort
          end
      | Some false => DataNull
      end
  end.

Definition aborts (query : string) : bool :=
  match turn_of query with Abort => true | _ => false end.

(** The queries whose turn ended before the loop was left. *)
Fixpoint handled (querys : list string) : list string :=
  match querys with
  | [] => []
  | query :: rest => if aborts query then [] else query :: handled rest
  end.

Definition successes (querys : list string) : list patch :=
  flat_map (fun query => match turn_of query with
                         | Success p => [p]
                         | _ => []
                         end) querys.

Definition data_null (querys : list string) : list string :=
  filter (fun query => match turn_of query with
                       | DataNull => true
                       | _ => false
                       end) querys.

(** The queries whose call or parse failed. *)
Definition call_failures (querys : list string) : list string :=
  filter (fun query => match api query with
                       | CallFails => true
                       | _ => false
                       end) querys.

End Queries.

(** ** A bucket with three commit links *)

Module Enrichment.

Definition commit_link (sha : string) : string :=
  "https://github.com/o/r/commit/" ++ sha.

Definition query (sha : string) : string :=
  "https://api.github.com/repos/o/r/commits/" ++ sha.

Definition record (i : nat) (links : list string) : one_res :=
  {| q_id := i; cve_id := "CVE-2024-0001";
     language := Some "Python"; date := Some "Jan 5, 2024";
     resources := links; CWEs := ["CWE-798"]; cvss := Some "7.5";
     description := None;
     m_AV := None; m_AC := None; m_PR := None; m_UI := None;
     m_S := None; m_C := None; m_I := None; m_A := None |}.

Definition bucket (links : list string) : files :=
  {| dirs := ["logs"; "results"]; log_file := Some "";
     res_file := Some [record 1 links];
     patch_file := None; error_file := None |}.

Definition commit_object : json :=
  JObj [("message", JStr "fix key");
        ("committer", JObj [("date", JStr "2024-01-05T00:00:00Z")])].

(** A response with every key that is read. *)
Definition full_reply (sha : string) : json :=
  JObj [("sha", JStr sha); ("url", JStr (query sha));
        ("html_url", JStr (commit_link sha));
        ("commit", commit_object); ("files", JArr [])].

(** A response without the key [files]. *)
Definition reply_without_files (sha : string) : json :=
  JObj [("sha", JStr sha); ("url", JStr (query sha));
        ("html_url", JStr (commit_link sha)); ("commit", commit_object)].

(** A response with the four required keys and without the key [sha]. *)
Definition reply_without_sha (sha : string) : json :=
  JObj [("url", JStr (query sha)); ("html_url", JStr (commit_link sha));
        ("commit", commit_object); ("files", JArr [])].

Definition full_patch (sha : string) : patch :=
  {| p_url := JStr (query sha); p_html_url := JStr (commit_link sha);
     p_message := JStr "fix key"; p_files := JArr [];
     p_commit_id := JStr sha;
     p_commit_date := JStr "2024-01-05T00:00:00Z" |}.

(** The call for [aaa] fails, the response for [bbb] lacks [files], the
    response for [ddd] lacks [sha], every other response is full. *)
Definition api (q : string) : api_reply :=
  if String.eqb q (query "aaa") then CallFails
  else if String.eqb q (query "bbb") then Parsed (reply_without_files "bbb")
  else if String.eqb q (query "ddd") then Parsed (reply_without_sha "ddd")
  else Parsed (full_reply (PyStr.last_segment "/" q)).

End Enrichment.

(** ** Further observations *)

Definition is_fetched (r : response) : bool :=
  match r with Fetched _ => true | _ => false end.

(** The accepted first tag of one text, the test of the filter's loop. *)
Definition text_allowed (t : string) : bool :=
  match re_search_cwe t with
  | Some g => in_allowed g
  | None => false
  end.

(** The link-log lines with their indices. *)
Definition indexed (content : list string) : list (nat * string) :=
  combine (seq 0 (length content)) content.

(** The fields of the bucket that are files. *)
Definition same_files (a b : files) : Prop :=
  log_file a = log_file b /\ res_file a = res_file b /\
  patch_file a = patch_file b /\ error_file a = error_file b.

(** ** The request headers *)

(** The list [uas] of [_build_headers]. *)
Definition uas : list string :=
  [ "Mozilla/5.0 (Windows NT 10.0; Win64; x64) AppleWebKit/537.36 (KHTML, like Gecko) Chrome/126.0 Safari/537.36";
    "Mozilla/5.0 (Macintosh; Intel Mac OS X 10_15_7) AppleWebKit/605.1.15 (KHTML, like Gecko) Version/17.1 Safari/605.1.15";
    "Mozilla/5.0 (X11; Linux x86_64) AppleWebKit/537.36 (KHTML, like Gecko) Chrome/124.0 Safari/537.36";
    "Mozilla/5.0 (Windows NT 10.0; Win64; x64; rv:125.0) Gecko/20100101 Firefox/125.0" ].

(** [_build_headers(referer)], where [random.choice(uas)] takes the
    entry with index [choice]; the dictionary is kept as the list of its
    items in the order of insertion. *)
Definition _build_headers (choice : nat) (referer : option string)
  : list (string * string) :=
  [ ("User-Agent", nth choice uas "");
    ("Accept", "text/html,application/xhtml+xml,application/xml;q=0.9,*/*;q=0.8");
    ("Accept-Language", "en-US,en;q=0.9,zh-CN;q=0.8,zh;q=0.7");
    ("Connection", "keep-alive");
    ("Cache-Control", "no-cache");
    ("Pragma", "no-cache");
    ("Upgrade-Insecure-Requests", "1");
    ("Referer", match referer with
                | Some (String c r) => String c r
                | _ => "https://www.mend.io/vulnerability-database/"
                end) ].

(** ** The driver *)

(** [Years] and [Months] of [main]. *)
Definition Years : list string :=
  map (fun year => PyStr.of_Z (Z.of_nat year)) (seq 2024 2).
Definition Months : list string :=
  map (fun month => PyStr.of_Z (Z.of_nat month)) (seq 1 12).

(** [YM], the part of the four file names that tells the buckets apart. *)
Definition YM (Year Month : string) : string := Year ++ "_" ++ Month.

(** The working directory: its directories, which all buckets share, and
    the files of each bucket under its [YM]. *)
Record disk : Type := {
  disk_dirs : list string;
  bucket : string -> files
}.

(** The files a call for the bucket [ym] works on. *)
Definition view (d : disk) (ym : string) : files :=
  {| dirs := disk_dirs d;
     log_file := log_file (bucket d ym); res_file := res_file (bucket d ym);
     patch_file := patch_file (bucket d ym);
     error_file := error_file (bucket d ym) |}.

(** The working directory after a call for the bucket [ym] ended with the
    files [fs]. *)
Definition update (d : disk) (ym : string) (fs : files) : disk :=
  {| disk_dirs := dirs fs;
     bucket := fun k => if String.eqb k ym then fs else bucket d k |}.

(** The two nested loops of [main] over a stage; an exception of a call
    ends them. *)
Fixpoint sweep (stage : disk -> string -> string -> bool * disk)
         (buckets : list (string * string)) (d : disk) : bool * disk :=
  match buckets with
  | [] => (false, d)
  | (Year, Month) :: rest =>
      let (exc, d') := stage d Year Month in
      if exc then (true, d') else sweep stage rest d'
  end.

(** The buckets in the order of the loops: the year outside, the month
    inside. *)
Definition main_buckets : list (string * string) := list_prod Years Months.

(** The list up to its first element with [stops], that element
    included. *)
Fixpoint up_to_first {A : Type} (stops : A -> bool) (l : list A) : list A :=
  match l with
  | [] => []
  | x :: rest => if stops x then [x] else x :: up_to_first stops rest
  end.

Section Driver.

Variable network : string -> string -> nat -> response.
Variable rng : nat -> unit_draw.
Variable api : string -> api_reply.

Definition step_one_at (d : disk) (Year Month : string) : bool * disk :=
  let r := step_one network rng Year Month (view d (YM Year Month)) in
  (raised r, update d (YM Year Month) (fs_after r)).

Definition step_two_at (d : disk) (Year Month : string) : bool * disk :=
  let out := step_two api (view d (YM Year Month)) in
  (fst out, update d (YM Year Month) (snd out)).

Definition main (d : disk) : bool * disk :=
  let (exc, d1) := sweep step_one_at main_buckets d in
  if exc then (true, d1) else sweep step_two_at main_buckets d1.

End Driver.

(** The key of a bucket of the loops. *)
Definition key (b : string * string) : string := YM (fst b) (snd b).

(** No string occurs twice in the list. *)
Fixpoint distinct (l : list string) : bool :=
  match l with
  | [] => true
  | x :: rest => negb (existsb (String.eqb x) rest) && distinct rest
  end.

(** Whether the call of a stage with exception flag [E] for the bucket
    [b] raises on the working directory [d]. *)
Definition stops_at (E : string -> string -> files -> bool) (d : disk)
           (b : string * string) : bool :=
  E (fst b) (snd b) (view d (key b)).

(** * Properties *)

(** ** Text *)

Example strip_ex : PyStr.strip "  Date: 2024-01-02 " = "Date: 2024-01-02".
Proof. reflexivity. Qed.

Example replace_ex :
  PyStr.replace "/commit/" "/commits/" "https://github.com/o/r/commit/abc"
  = "https://github.com/o/r/commits/abc".
Proof. reflexivity. Qed.

Example to_query_ex :
  to_query "https://github.com/o/r/commit/abc"
  = "https://api.github.com/repos/o/r/commits/abc".
Proof. reflexivity. Qed.

Example last_segment_ex :
  PyStr.last_segment "/" "/vulnerability-database/CVE-2024-1" = "CVE-2024-1".
Proof. reflexivity. Qed.

Example last_segment_none : PyStr.last_segment "/" "CVE-2024-1" = "CVE-2024-1".
Proof. reflexivity. Qed.

Example page_url_ex :
  page_url "2024" "1" 12
  = "https://www.mend.io/vulnerability-database/full-listing/2024/1/12".
Proof. reflexivity. Qed.

Example int_ex :
  PyInt.int " 12 " = Some 12%Z /\ PyInt.int "1_0" = Some 10%Z /\
  PyInt.int "-3" = Some (-3)%Z /\ PyInt.int "Next" = None /\
  PyInt.int "" = None /\ PyInt.int "1__0" = None /\ PyInt.int "+ 1" = None.
Proof. repeat split. Qed.

Example readlines_ex :
  PyStr.readlines ("a" ++ PyStr.nl ++ "b" ++ String (ascii_of_nat 13) "c")
  = ["a" ++ PyStr.nl; "b" ++ PyStr.nl; "c"].
Proof. reflexivity. Qed.

Example re_search_cwe_ex :
  re_search_cwe "see CWE-x, CWE-7980 and CWE-798" = Some "7980".
Proof. reflexivity. Qed.

Lemma append_assoc (a b c : string) : (a ++ b) ++ c = a ++ b ++ c.
Proof. induction a as [|x a IH]; simpl; [reflexivity | now rewrite IH]. Qed.

(** A line without line end, written with its line end, is read back
    as one line. *)
Lemma readlines_from_line (cur s rest : string) :
  PyStr.line_free s = true ->
  PyStr.readlines_from cur (s ++ PyStr.nl ++ rest)
  = (cur ++ s ++ PyStr.nl) :: PyStr.readlines_from "" rest.
Proof.
  revert cur. induction s as [|c s IH]; intros cur H.
  - reflexivity.
  - cbn [PyStr.line_free] in H.
    apply andb_true_iff in H as [H Hs]. apply andb_true_iff in H as [H1 H2].
    apply negb_true_iff in H1, H2.
    change (String c s ++ PyStr.nl ++ rest)
      with (String c (s ++ PyStr.nl ++ rest)).
    cbn [PyStr.readlines_from]. rewrite H1, H2, (IH _ Hs).
    now rewrite append_assoc.
Qed.

(** The link log read back: the lines that were written, each with its
    line end, when no link contains a line end. *)
Lemma readlines_lines_text (links : list string) :
  Forall (fun l => PyStr.line_free l = true) links ->
  PyStr.readlines (lines_text links) = map (fun l => l ++ PyStr.nl) links.
Proof.
  unfold PyStr.readlines. induction 1 as [|l links Hl _ IH]; [reflexivity|].
  cbn [lines_text map]. rewrite append_assoc.
  rewrite (readlines_from_line "" l _ Hl). now rewrite IH.
Qed.

Lemma startswith_append (p s : string) : PyStr.startswith p (p ++ s) = true.
Proof.
  induction p as [|a p IH]; simpl; [reflexivity|].
  now rewrite Ascii.eqb_refl, IH.
Qed.

Lemma startswith_inv (p s : string) :
  PyStr.startswith p s = true -> exists r, s = p ++ r.
Proof.
  revert s; induction p as [|a p IH]; intros s H; simpl in *.
  - now exists s.
  - destruct s as [|b s]; [discriminate|].
    apply andb_true_iff in H as [Hab Hs].
    apply Ascii.eqb_eq in Hab; subst b.
    destruct (IH _ Hs) as [r ->]. now exists r.
Qed.

Lemma take_digits_split (s : string) :
  exists post, s = PyStr.take_digits s ++ post /\ Spec.no_digit_first post.
Proof.
  induction s as [|c s [post [E N]]]; simpl.
  - exists "". now split.
  - destruct (PyStr.is_digit c) eqn:D.
    + exists post. split; [simpl; now rewrite <- E | exact N].
    + exists (String c s). split; [reflexivity | exact D].
Qed.

Lemma take_digits_all (s : string) (c : ascii) :
  In c (list_ascii_of_string (PyStr.take_digits s)) -> PyStr.is_digit c = true.
Proof.
  induction s as [|a s IH]; simpl; [tauto|].
  destruct (PyStr.is_digit a) eqn:D; simpl; [|tauto].
  intros [<-|H]; auto.
Qed.

Lemma take_digits_unique (g post : string) :
  (forall c, In c (list_ascii_of_string g) -> PyStr.is_digit c = true) ->
  Spec.no_digit_first post ->
  PyStr.take_digits (g ++ post) = g.
Proof.
  intros Hg Hp. induction g as [|a g IH]; simpl.
  - destruct post as [|c post]; simpl in *; [reflexivity | now rewrite Hp].
  - rewrite (Hg a) by (simpl; auto). f_equal. apply IH.
    intros c Hc. apply Hg. simpl; auto.
Qed.

(** ** Taxonomy filter *)

Lemma match_cwe_here_iff (t g : string) :
  match_cwe_here t = Some g <->
  exists post, t = "CWE-" ++ g ++ post /\ Spec.digits g /\ Spec.no_digit_first post.
Proof.
  unfold match_cwe_here. split.
  - destruct (PyStr.startswith "CWE-" t) eqn:P; [|discriminate].
    apply startswith_inv in P as [r ->].
    change (PyStr.drop 4 ("CWE-" ++ r)) with r.
    destruct (take_digits_split r) as [post [E N]].
    destruct (PyStr.take_digits r) as [|c ds] eqn:T; [discriminate|].
    intros [= <-]. exists post. split; [now rewrite E at 1|].
    split; [|exact N]. split; [discriminate|].
    intros a Ha. apply (take_digits_all r). now rewrite T.
  - intros [post [-> [[Hne Hd] N]]].
    rewrite startswith_append.
    change (PyStr.drop 4 ("CWE-" ++ g ++ post)) with (g ++ post).
    rewrite (take_digits_unique g post Hd N).
    destruct g; [contradiction | reflexivity].
Qed.

Lemma re_search_cwe_first_tag (t g : string) :
  re_search_cwe t = Some g <-> Spec.first_tag t g.
Proof.
  split.
  - induction t as [|c t IH]; cbn [re_search_cwe].
    + discriminate.
    + destruct (match_cwe_here (String c t)) eqn:M.
      * intros [= ->]. apply match_cwe_here_iff in M as [post [E [D N]]].
        exists "", post. repeat split; auto; try apply D.
        intros pre' rest _ L. simpl in L. lia.
      * intros H. destruct (IH H) as [pre [post [E [D [N F]]]]].
        exists (String c pre), post. repeat split; try apply D; auto.
        { simpl. now rewrite E. }
        intros pre' rest E' L. destruct pre' as [|c' pre'].
        { simpl in E'. now subst rest. }
        simpl in E', L. injection E' as -> E'.
        apply (F pre' rest E'). lia.
  - intros [pre [post [E [D [N F]]]]]. revert t E F.
    induction pre as [|c pre IH]; intros t E F.
    + assert (M : match_cwe_here t = Some g)
        by (apply match_cwe_here_iff; exists post; auto).
      destruct t; cbn [re_search_cwe]; now rewrite M.
    + subst t.
      change (String c pre ++ "CWE-" ++ g ++ post)
        with (String c (pre ++ "CWE-" ++ g ++ post)) in *.
      cbn [re_search_cwe].
      rewrite (F "" (String c (pre ++ "CWE-" ++ g ++ post)) eq_refl)
        by (simpl; lia).
      apply IH; [reflexivity|].
      intros pre' rest E' L.
      apply (F (String c pre') rest); [|simpl; lia].
      change (String c pre' ++ rest) with (String c (pre' ++ rest)).
      now f_equal.
Qed.

Lemma in_allowed_iff (g : string) : in_allowed g = true <-> In g ALLOWED_CWE_IDS.
Proof.
  unfold in_allowed. rewrite existsb_exists. split.
  - intros [x [Hx E]]. apply String.eqb_eq in E. now subst.
  - intros H. exists g. split; [exact H | apply String.eqb_refl].
Qed.

(** What the filter computes: some text's first tag is allowed. *)
Lemma has_allowed_cwe_first_tag (cwe_texts : list string) :
  has_allowed_cwe cwe_texts = true <->
  exists t g, In t cwe_texts /\ Spec.first_tag t g /\ In g ALLOWED_CWE_IDS.
Proof.
  induction cwe_texts as [|t rest IH]; simpl.
  - split; [discriminate | intros [t [g [[] _]]]].
  - destruct (re_search_cwe t) as [g|] eqn:R.
    + destruct (in_allowed g) eqn:A.
      * split; [|reflexivity]. intros _. exists t, g.
        split; [now left|]. split; [now apply re_search_cwe_first_tag|].
        now apply in_allowed_iff.
      * rewrite IH. split.
        { intros [t' [g' [I H]]]. exists t', g'. split; [now right | exact H]. }
        intros [t' [g' [[<-|I] [F M]]]]; [|now exists t', g'].
        apply re_search_cwe_first_tag in F. rewrite R in F. injection F as <-.
        apply in_allowed_iff in M. congruence.
    + rewrite IH. split.
      { intros [t' [g' [I H]]]. exists t', g'. split; [now right | exact H]. }
      intros [t' [g' [[<-|I] [F M]]]]; [|now exists t', g'].
      apply re_search_cwe_first_tag in F. congruence.
Qed.

(** The filter never accepts a list in which no code contains an allowed
    tag. *)
Lemma has_allowed_cwe_sound (cwe_texts : list string) :
  has_allowed_cwe cwe_texts = true -> Spec.passes cwe_texts.
Proof.
  intros H. apply has_allowed_cwe_first_tag in H as [t [g [I [F M]]]].
  destruct F as [pre [post [E [D [N _]]]]].
  exists t, g. split; [exact I|]. split; [|exact M]. now exists pre, post.
Qed.

(** C4: the filter is true exactly when some code text contains a numeric
    tag of the allow-set.  The code looks at the first tag of each text
    only: on the text "CWE-79 CWE-798", which contains the allowed tag
    798, it answers false.  The two lists of the claim are answered as
    the claim says. *)
Theorem has_allowed_cwe_misses_later_tag :
  has_allowed_cwe ["CWE-79 CWE-798"] = false /\
  Spec.passes ["CWE-79 CWE-798"] /\
  has_allowed_cwe ["CWE-79"] = false /\
  has_allowed_cwe ["CWE-798 (Use of Hard-coded Credentials)"] = true.
Proof.
  split; [reflexivity|]. split; [|split; reflexivity].
  exists "CWE-79 CWE-798", "798". split; [now left|]. split.
  - exists "CWE-79 ", "". split; [reflexivity|]. split; [|exact I].
    split; [discriminate|].
    simpl. intros c [<-|[<-|[<-|[]]]]; reflexivity.
  - apply in_allowed_iff. reflexivity.
Qed.

(** ** The fetch primitive *)

Lemma uniform_lower (a b : Q) (u : unit_draw) :
  (a <= b)%Q -> (a <= uniform a b u)%Q.
Proof.
  intros H. unfold uniform.
  assert (0 <= (b - a) * draw u)%Q.
  { apply Qmult_le_0_compat; [|apply draw_lo].
    unfold Qminus. rewrite <- (Qplus_opp_r a).
    apply Qplus_le_l. exact H. }
  rewrite <- (Qplus_0_r a) at 1. apply Qplus_le_r. exact H0.
Qed.

Lemma backoff_nonneg (base_delay : Q) (attempt : nat) :
  (0 <= base_delay)%Q -> (0 <= backoff base_delay attempt)%Q.
Proof.
  intros H. unfold backoff. apply Qmult_le_0_compat; [exact H|].
  change 0%Q with (inject_Z 0). rewrite <- Zle_Qle.
  apply Z.pow_nonneg. lia.
Qed.

Lemma backoff_monotone (base_delay : Q) (a b : nat) :
  (0 <= base_delay)%Q -> a <= b ->
  (backoff base_delay a <= backoff base_delay b)%Q.
Proof.
  intros H L. unfold backoff.
  rewrite !(Qmult_comm base_delay).
  apply Qmult_le_compat_r; [|exact H].
  rewrite <- Zle_Qle. apply Z.pow_le_mono_r; lia.
Qed.

Lemma backoff_increasing (base_delay : Q) (a b : nat) :
  (0 < base_delay)%Q -> a < b ->
  (backoff base_delay a < backoff base_delay b)%Q.
Proof.
  intros H L. unfold backoff.
  rewrite !(Qmult_comm base_delay).
  apply Qmult_lt_compat_r; [exact H|].
  rewrite <- Zlt_Qlt. apply Z.pow_lt_mono_r; lia.
Qed.

Section FetcherFacts.

Variable network : string -> string -> nat -> response.
Variable rng : nat -> unit_draw.

Lemma retry_delay_nonneg (base_delay : Q) (attempt : nat) (r : response) :
  (0 <= base_delay)%Q -> (0 <= retry_delay rng base_delay attempt r)%Q.
Proof.
  intros H.
  assert (N : (0 <= inject_Z (Z.of_nat attempt))%Q)
    by (change 0%Q with (inject_Z 0); rewrite <- Zle_Qle; lia).
  destruct r as [doc|code| |]; simpl; try discriminate.
  - destruct ((code =? 403)%Z || (code =? 429)%Z).
    + apply Qle_trans with (0 + (1#4))%Q; [discriminate|].
      apply Qplus_le_compat; [now apply backoff_nonneg|].
      apply uniform_lower. discriminate.
    + apply Qmult_le_0_compat; [exact N | discriminate].
  - rewrite <- (Qplus_0_r 0). now apply Qplus_le_compat.
Qed.

(** With a delay base that is not negative no exception leaves the loop. *)
Lemma get_soup_loop_returns (url referer : string) (base_delay : Q)
      (remaining attempt : nat) (slept : list Q) :
  (0 <= base_delay)%Q ->
  exists res, fst (get_soup_loop network rng url referer base_delay
                                 remaining attempt slept) = Returned res.
Proof.
  intros H. revert attempt slept.
  induction remaining as [|n IH]; intros attempt slept; cbn [get_soup_loop].
  - now exists None.
  - pose proof (retry_delay_nonneg base_delay attempt
                  (network url referer attempt) H) as D.
    apply Qle_bool_iff in D.
    destruct (network url referer attempt) as [doc|code| |];
      [now exists (Some doc) | rewrite D; apply IH ..].
Qed.

Lemma get_soup_default_returns (url : string) (referer : option string) :
  exists res, get_soup_default network rng url referer = Returned res.
Proof.
  unfold get_soup_default, get_soup. apply get_soup_loop_returns. discriminate.
Qed.

Lemma get_soup_loop_rate_limited (url referer : string) (base_delay : Q)
      (remaining attempt : nat) (slept : list Q) :
  (0 <= base_delay)%Q ->
  (forall a, attempt <= a < attempt + remaining ->
             rate_limited (network url referer a) = true) ->
  get_soup_loop network rng url referer base_delay remaining attempt slept
  = (Returned None,
     (slept ++ map (fun a => (backoff base_delay a
                              + uniform (1#4) (9#20) (rng a))%Q)
                   (seq attempt remaining))%list).
Proof.
  intros H. revert attempt slept.
  induction remaining as [|n IH]; intros attempt slept L; cbn [get_soup_loop].
  - simpl. now rewrite app_nil_r.
  - pose proof (retry_delay_nonneg base_delay attempt
                  (network url referer attempt) H) as D.
    apply Qle_bool_iff in D.
    pose proof (L attempt ltac:(lia)) as R.
    destruct (network url referer attempt) as [doc|code| |];
      try discriminate R.
    rewrite D. rewrite IH by (intros a Ha; apply L; lia).
    rewrite <- app_assoc.
    cbn [retry_delay rate_limited seq map app] in *. now rewrite R.
Qed.

End FetcherFacts.



(** ** Files and traces *)

Lemma records_append_all (rs : list one_res) (fs : files) :
  records (append_all rs fs) = (records fs ++ rs)%list.
Proof.
  revert fs. induction rs as [|r rs IH]; intros fs; simpl.
  - now rewrite app_nil_r.
  - unfold append_all in IH. rewrite IH.
    unfold records, append_res; simpl.
    destruct (res_file fs); simpl; [now rewrite <- app_assoc | reflexivity].
Qed.

Lemma log_file_append_all (rs : list one_res) (fs : files) :
  log_file (append_all rs fs) = log_file fs.
Proof.
  revert fs. induction rs as [|r rs IH]; intros fs; simpl; [reflexivity|].
  unfold append_all in IH. now rewrite IH.
Qed.

Lemma append_all_app (rs rs' : list one_res) (fs : files) :
  append_all (rs ++ rs') fs = append_all rs' (append_all rs fs).
Proof. unfold append_all. apply fold_left_app. Qed.

Lemma appended_app (tr tr' : list event) :
  appended (tr ++ tr') = (appended tr ++ appended tr')%list.
Proof. unfold appended. apply flat_map_app. Qed.

Lemma appended_filter (k : nat) (tr : list event) :
  appended (filter (index_above k) tr)
  = filter (fun r => (k <? q_id r)%nat) (appended tr).
Proof.
  induction tr as [|e tr IH]; simpl; [reflexivity|].
  destruct e as [p u|c|i u|r]; unfold index_above at 1; simpl; auto.
  - destruct (k <? i)%nat; simpl; auto.
  - destruct (k <? q_id r)%nat; simpl; now rewrite IH.
Qed.

Lemma item_fetches_filter (k : nat) (tr : list event) :
  item_fetches (filter (index_above k) tr)
  = filter (fun f => (k <? fst f)%nat) (item_fetches tr).
Proof.
  induction tr as [|e tr IH]; simpl; [reflexivity|].
  destruct e as [p u|c|i u|r]; unfold index_above at 1; simpl; auto.
  - destruct (k <? i)%nat; simpl; now rewrite IH.
  - destruct (k <? q_id r)%nat; simpl; auto.
Qed.

(** ** Extraction keeps the sequence index *)

Lemma metric_rows_q_id (rows : list node) (r r' : one_res) :
  Extract.metric_rows rows r = Some r' -> q_id r' = q_id r.
Proof.
  revert r. induction rows as [|tr rows IH]; intros r; simpl.
  - now intros [= <-].
  - destruct (Bs4.find "th" tr); [|discriminate].
    destruct (Bs4.find "td" tr); [|discriminate].
    destruct (metric_of_label _); intros H; apply IH in H; exact H.
Qed.

Lemma extract_q_id (doc : soup) (r0 r : one_res) :
  Extract.extract doc r0 = Some r -> q_id r = q_id r0.
Proof.
  unfold Extract.extract. destruct (Extract.headings doc) as [d l].
  destruct (Bs4.find_class "table" "table table-report" doc) as [table|].
  - destruct (Extract.metric_rows _ _) as [r2|] eqn:M; [|discriminate].
    intros [= <-]. simpl. now apply metric_rows_q_id in M.
  - now intros [= <-].
Qed.

Section TurnFacts.

Variable network : string -> string -> nat -> response.
Variable rng : nat -> unit_draw.

Lemma item_record_q_id (i : nat) (line : string) (r : one_res) :
  item_record network rng i line = Some r -> q_id r = i.
Proof.
  unfold item_record.
  destruct (get_soup_default _ _ _ _) as [[doc|]|]; try discriminate.
  destruct (Extract.extract _ _) as [r1|] eqn:E; [|discriminate].
  destruct (has_allowed_cwe (CWEs r1) && complete r1); [|discriminate].
  intros [= <-]. now apply extract_q_id in E.
Qed.

Lemma process_item_eq (already i : nat) (line : string)
      (fs : files) (tr : list event) :
  process_item network rng already i line (fs, tr)
  = if (i <=? already)%nat then (fs, tr)
    else (append_all (appended (item_events network rng i line)) fs,
          (tr ++ item_events network rng i line)%list).
Proof.
  unfold process_item, item_events, item_record.
  destruct (i <=? already)%nat; [reflexivity|].
  destruct (get_soup_default _ _ _ _) as [[doc|]|]; try reflexivity.
  destruct (Extract.extract _ _) as [r|]; [|reflexivity].
  destruct (has_allowed_cwe (CWEs r)); simpl; [|reflexivity].
  destruct (complete r); simpl; [|reflexivity].
  now rewrite <- app_assoc.
Qed.

Lemma items_loop_eq (already i : nat) (content : list string)
      (fs : files) (tr : list event) :
  items_loop network rng already i content (fs, tr)
  = (append_all (appended (loop_events network rng already i content)) fs,
     (tr ++ loop_events network rng already i content)%list).
Proof.
  revert i fs tr. induction content as [|line rest IH]; intros i fs tr.
  - simpl. now rewrite app_nil_r.
  - cbn [items_loop loop_events]. rewrite process_item_eq.
    destruct (i <=? already)%nat; rewrite IH; [reflexivity|].
    now rewrite appended_app, append_all_app, <- app_assoc.
Qed.

(** Every event of the loop belongs to an index above the cursor. *)
Lemma item_events_index (i : nat) (line : string) (e : event) :
  In e (item_events network rng i line) -> event_index e = Some i.
Proof.
  unfold item_events. intros [<-|H]; [reflexivity|].
  destruct (item_record network rng i line) as [r|] eqn:R; [|contradiction].
  destruct H as [<-|[]]. simpl. f_equal. now apply item_record_q_id in R.
Qed.

Lemma loop_events_index (already i : nat) (content : list string) (e : event) :
  In e (loop_events network rng already i content) ->
  exists j, event_index e = Some j /\ already < j /\ i <= j.
Proof.
  revert i. induction content as [|line rest IH]; intros i; simpl; [tauto|].
  rewrite in_app_iff. intros [H|H].
  - destruct (i <=? already)%nat eqn:L; [contradiction|].
    apply Nat.leb_gt in L. exists i. split; [|lia].
    now apply item_events_index in H.
  - destruct (IH _ H) as [j [E [A B]]]. exists j. split; [exact E | lia].
Qed.

(** The events under a cursor [k] are the events under the cursor 0 that
    belong to an index above [k]. *)
Lemma loop_events_filter (k i : nat) (content : list string) :
  filter (index_above k) (loop_events network rng 0 i content)
  = loop_events network rng k i content.
Proof.
  revert i. induction content as [|line rest IH]; intros i;
    cbn [loop_events]; [reflexivity|].
  rewrite filter_app, IH. f_equal.
  assert (F : filter (index_above k) (item_events network rng i line)
              = if (k <? i)%nat then item_events network rng i line else []).
  { destruct (k <? i)%nat eqn:L.
    - apply forallb_filter_id. apply forallb_forall. intros e He.
      apply item_events_index in He. unfold index_above. now rewrite He.
    - assert (N : forall l, (forall e, In e l -> index_above k e = false) ->
                            filter (index_above k) l = []).
      { induction l as [|e l IHl]; intros Hl; simpl; [reflexivity|].
        rewrite (Hl e) by (simpl; auto). apply IHl. intros; apply Hl; simpl; auto. }
      apply N. intros e He.
      apply item_events_index in He. unfold index_above. now rewrite He. }
  destruct (i <=? 0)%nat eqn:Z0; destruct (i <=? k)%nat eqn:Zk.
  - reflexivity.
  - apply Nat.leb_le in Z0. apply Nat.leb_gt in Zk. lia.
  - rewrite F. apply Nat.leb_le in Zk.
    destruct (k <? i)%nat eqn:L; [apply Nat.ltb_lt in L; lia | reflexivity].
  - rewrite F. apply Nat.leb_gt in Zk.
    destruct (k <? i)%nat eqn:L; [reflexivity | apply Nat.ltb_ge in L; lia].
Qed.

End TurnFacts.

(** ** Stage one *)

Lemma in_item_fetches (i : nat) (u : string) (tr : list event) :
  In (i, u) (item_fetches tr) <-> In (EvFetchItem i u) tr.
Proof.
  unfold item_fetches. rewrite in_flat_map. split.
  - intros [e [He H]]. destruct e; simpl in H; try contradiction.
    destruct H as [[= -> ->]|[]]. exact He.
  - intros H. exists (EvFetchItem i u). split; [exact H | now left].
Qed.

Lemma in_appended (r : one_res) (tr : list event) :
  In r (appended tr) <-> In (EvAppend r) tr.
Proof.
  unfold appended. rewrite in_flat_map. split.
  - intros [e [He H]]. destruct e; simpl in H; try contradiction.
    destruct H as [->|[]]. exact He.
  - intros H. exists (EvAppend r). split; [exact H | now left].
Qed.

Lemma appended_no_index (tr : list event) :
  (forall e, In e tr -> event_index e = None) -> appended tr = [].
Proof.
  induction tr as [|e tr IH]; intros H; simpl; [reflexivity|].
  rewrite IH by (intros; apply H; simpl; auto).
  specialize (H e (or_introl eq_refl)). now destruct e.
Qed.

Section StageOneFacts.

Variable network : string -> string -> nat -> response.
Variable rng : nat -> unit_draw.
Variables Year Month : string.

Lemma crawl_items_eq (fs : files) (tr : list event) (text : string) :
  log_file fs = Some text ->
  crawl_items network rng (fs, tr)
  = {| raised := false;
       fs_after :=
         append_all
           (appended (loop_events network rng (already_query_qid fs) 0
                                  (PyStr.readlines text))) fs;
       trace := (tr ++ loop_events network rng (already_query_qid fs) 0
                                   (PyStr.readlines text))%list |}.
Proof.
  intros L. unfold crawl_items. rewrite L, items_loop_eq. reflexivity.
Qed.

Lemma step_one_with_log (fs : files) (text : string) :
  log_file fs = Some text ->
  step_one network rng Year Month fs
  = crawl_items network rng (ensure_dirs ["logs"; "results"] fs, []).
Proof.
  intros L. unfold step_one.
  change (log_file (ensure_dirs ["logs"; "results"] fs)) with (log_file fs).
  now rewrite L.
Qed.

(** The loop over the later pages adds the links of every page that
    could be fetched, in the order of the pages. *)
Lemma pages_loop_eq (pages : list nat) (links : list (string * string))
      (tr : list event) :
  pages_loop network rng Year Month pages links tr
  = (Returned (links ++ flat_map (page_result network rng Year Month) pages)%list,
     (tr ++ map (fun i => EvFetchPage i (page_url Year Month i)) pages)%list).
Proof.
  revert links tr. induction pages as [|i rest IH]; intros links tr.
  - simpl. now rewrite !app_nil_r.
  - cbn [pages_loop flat_map map]. unfold page_result at 1.
    destruct (get_soup_default_returns network rng (page_url Year Month i)
                (Some (listing_url Year Month))) as [res ->].
    destruct res as [doc|]; rewrite IH, <- !app_assoc; reflexivity.
Qed.

(** A run is a listing walk, which touches no record, followed by the
    events of the item loop under the cursor read at the start. *)
Lemma step_one_shape (fs : files) :
  exists walk content,
    (forall e, In e walk -> event_index e = None) /\
    trace (step_one network rng Year Month fs)
    = (walk ++ loop_events network rng (already_query_qid fs) 0 content)%list /\
    records (fs_after (step_one network rng Year Month fs))
    = (records fs
       ++ appended (loop_events network rng (already_query_qid fs) 0 content))%list.
Proof.
  destruct (log_file fs) as [text|] eqn:L.
  - exists [], (PyStr.readlines text).
    rewrite (step_one_with_log fs text L).
    rewrite (crawl_items_eq _ _ text) by exact L.
    split; [intros e []|]. split; [reflexivity|].
    cbn [fs_after]. now rewrite records_append_all.
  - unfold step_one.
    change (log_file (ensure_dirs ["logs"; "results"] fs)) with (log_file fs).
    rewrite L.
    destruct (get_soup_default_returns network rng (listing_url Year Month) None)
      as [res ->].
    destruct res as [doc|].
    + rewrite pages_loop_eq.
      set (links := (page_links doc ++ _)%list).
      set (tr := ([EvFetchPage 1 (listing_url Year Month)] ++ _)%list).
      set (text := lines_text (map snd links)).
      exists (tr ++ [EvWriteLog text])%list, (PyStr.readlines text).
      rewrite (crawl_items_eq _ _ text) by reflexivity.
      split; [|split; [reflexivity|]].
      * intros e He. apply in_app_or in He as [He|[<-|[]]]; [|reflexivity].
        subst tr. apply in_app_or in He as [[<-|[]]|He]; [reflexivity|].
        apply in_map_iff in He as [i [<- _]]. reflexivity.
      * cbn [fs_after]. now rewrite records_append_all.
    + exists [EvFetchPage 1 (listing_url Year Month)], [].
      split; [intros e [<-|[]]; reflexivity|].
      split; [reflexivity|]. simpl. now rewrite app_nil_r.
Qed.

End StageOneFacts.

Lemma already_query_qid_last (fs : files) (rs : list one_res) (r : one_res) :
  res_file fs = Some (rs ++ [r])%list -> already_query_qid fs = q_id r.
Proof.
  intros H. unfold already_query_qid. rewrite H, rev_app_distr. reflexivity.
Qed.

(** C1: when the record artifact ends with a record of sequence index
    [k], a run over the same link log fetches and appends nothing for an
    index up to [k]; the artifact keeps its lines, and what the run
    fetches and appends is what a run without any record artifact, under
    the same server, fetches and appends for the indices above [k]. *)
Theorem resume_matches_clean_run
        (network : string -> string -> nat -> response) (rng : nat -> unit_draw)
        (Year Month : string) (fs : files) (text : string)
        (rs : list one_res) (r : one_res) :
  log_file fs = Some text ->
  res_file fs = Some (rs ++ [r])%list ->
  let k := q_id r in
  let resumed := step_one network rng Year Month fs in
  let clean := step_one network rng Year Month (without_res fs) in
  (forall i url, In (i, url) (item_fetches (trace resumed)) -> k < i) /\
  (forall r', In r' (appended (trace resumed)) -> k < q_id r') /\
  records (fs_after resumed) = (rs ++ [r] ++ appended (trace resumed))%list /\
  records (fs_after clean) = appended (trace clean) /\
  appended (trace resumed)
  = filter (fun r' => (k <? q_id r')%nat) (appended (trace clean)) /\
  item_fetches (trace resumed)
  = filter (fun f => (k <? fst f)%nat) (item_fetches (trace clean)) /\
  log_file (fs_after resumed) = Some text.
Proof.
  intros L R k resumed clean.
  assert (A : already_query_qid fs = k) by now apply (already_query_qid_last fs rs).
  assert (ER : resumed
               = crawl_items network rng (ensure_dirs ["logs"; "results"] fs, []))
    by now apply (step_one_with_log network rng Year Month fs text).
  assert (EC : clean
               = crawl_items network rng
                   (ensure_dirs ["logs"; "results"] (without_res fs), []))
    by now apply (step_one_with_log network rng Year Month (without_res fs) text).
  rewrite (crawl_items_eq _ _ _ _ text) in ER by exact L.
  rewrite (crawl_items_eq _ _ _ _ text) in EC by exact L.
  change (already_query_qid (ensure_dirs ["logs"; "results"] fs))
    with (already_query_qid fs) in ER.
  change (already_query_qid (ensure_dirs ["logs"; "results"] (without_res fs)))
    with 0 in EC.
  rewrite A in ER. rewrite ER, EC. cbn [trace fs_after app].
  rewrite !records_append_all, log_file_append_all.
  repeat split.
  - intros i url H. apply in_item_fetches in H.
    apply loop_events_index in H as [j [[= <-] [H _]]]. exact H.
  - intros r' H. apply in_appended in H.
    apply loop_events_index in H as [j [[= <-] [H _]]]. exact H.
  - unfold records. cbn [res_file ensure_dirs]. rewrite R.
    now rewrite <- app_assoc.
  - now rewrite <- loop_events_filter, appended_filter.
  - now rewrite <- loop_events_filter, item_fetches_filter.
  - exact L.
Qed.

(** C3: when the record artifact does not exist or is empty the cursor is
    0, the test [i <= already_query_qid] holds for the index 0, and the
    run neither fetches nor writes the link with sequence index 0. *)
Theorem fresh_run_skips_index_zero
        (network : string -> string -> nat -> response) (rng : nat -> unit_draw)
        (Year Month : string) (fs : files) :
  res_file fs = None \/ res_file fs = Some [] ->
  let r := step_one network rng Year Month fs in
  already_query_qid fs = 0 /\
  (0 <=? already_query_qid fs)%nat = true /\
  (forall line st,
      process_item network rng (already_query_qid fs) 0 line st = st) /\
  (forall url, ~ In (0, url) (item_fetches (trace r))) /\
  (forall x, In x (appended (trace r)) -> q_id x <> 0) /\
  (forall x, In x (records (fs_after r)) -> q_id x <> 0).
Proof.
  intros E r.
  assert (A : already_query_qid fs = 0)
    by (unfold already_query_qid; destruct E as [-> | ->]; reflexivity).
  assert (N : records fs = [])
    by (unfold records; destruct E as [-> | ->]; reflexivity).
  destruct (step_one_shape network rng Year Month fs)
    as [walk [content [W [T F]]]].
  fold r in T, F. rewrite A in T, F. rewrite N in F.
  split; [exact A|]. split; [now rewrite A|].
  split; [intros line [fs1 tr1]; rewrite A; reflexivity|].
  assert (P : forall e, In e (trace r) -> event_index e <> Some 0).
  { intros e He. rewrite T in He. apply in_app_or in He as [He|He].
    - rewrite (W e He). discriminate.
    - apply loop_events_index in He as [j [-> [H _]]]. intros [= ->]. lia. }
  split; [|split].
  - intros url H. apply in_item_fetches in H. now apply P in H.
  - intros x H. apply in_appended in H. apply P in H.
    intros Q0. apply H. simpl. now rewrite Q0.
  - intros x H. rewrite F in H. simpl in H. apply in_appended in H.
    apply loop_events_index in H as [j [[= <-] [H _]]]. lia.
Qed.

Lemma fresh_run_skips_index_zero_scenario :
  (res_file no_files = None \/ res_file no_files = Some []) /\
  let r := step_one Scenario.network Scenario.rng "2024" "1" no_files in
  already_query_qid no_files = 0 /\
  (0 <=? already_query_qid no_files)%nat = true /\
  (forall line st,
      process_item Scenario.network Scenario.rng
                   (already_query_qid no_files) 0 line st = st) /\
  (forall url, ~ In (0, url) (item_fetches (trace r))) /\
  (forall x, In x (appended (trace r)) -> q_id x <> 0) /\
  (forall x, In x (records (fs_after r)) -> q_id x <> 0).
Proof.
  split; [left; reflexivity|].
  apply (fresh_run_skips_index_zero Scenario.network Scenario.rng
           "2024" "1" no_files).
  left; reflexivity.
Defined.

Lemma resume_matches_clean_run_scenario :
  let fs := {| dirs := []; patch_file := None; error_file := None;
               log_file := Some (lines_text [Scenario.link_B; Scenario.link_A;
                                             Scenario.link_A]);
               res_file := Some ([] ++ [Scenario.record_A 1])%list |} in
  log_file fs
  = Some (lines_text [Scenario.link_B; Scenario.link_A; Scenario.link_A]) /\
  res_file fs = Some ([] ++ [Scenario.record_A 1])%list /\
  let resumed := step_one Scenario.network Scenario.rng "2024" "1" fs in
  let clean := step_one Scenario.network Scenario.rng "2024" "1" (without_res fs) in
  (forall i url, In (i, url) (item_fetches (trace resumed)) -> 1 < i) /\
  (forall r', In r' (appended (trace resumed)) -> 1 < q_id r') /\
  records (fs_after resumed)
  = ([] ++ [Scenario.record_A 1] ++ appended (trace resumed))%list /\
  records (fs_after clean) = appended (trace clean) /\
  appended (trace resumed)
  = filter (fun r' => (1 <? q_id r')%nat) (appended (trace clean)) /\
  item_fetches (trace resumed)
  = filter (fun f => (1 <? fst f)%nat) (item_fetches (trace clean)) /\
  log_file (fs_after resumed)
  = Some (lines_text [Scenario.link_B; Scenario.link_A; Scenario.link_A]).
Proof.
  intros fs. split; [reflexivity|]. split; [reflexivity|].
  apply (resume_matches_clean_run Scenario.network Scenario.rng "2024" "1" fs
           (lines_text [Scenario.link_B; Scenario.link_A; Scenario.link_A])
           [] (Scenario.record_A 1)); reflexivity.
Defined.

(** In that bucket the resumed run fetches the link 2 only and appends
    its record; the run without an artifact also writes the link 1. *)
Example resumed_run_of_scenario :
  let fs := {| dirs := []; patch_file := None; error_file := None;
               log_file := Some (lines_text [Scenario.link_B; Scenario.link_A;
                                             Scenario.link_A]);
               res_file := Some [Scenario.record_A 1] |} in
  appended (trace (step_one Scenario.network Scenario.rng "2024" "1" fs))
  = [Scenario.record_A 2] /\
  appended (trace (step_one Scenario.network Scenario.rng "2024" "1"
                            (without_res fs)))
  = [Scenario.record_A 1; Scenario.record_A 2].
Proof. split; vm_compute; reflexivity. Qed.

(** ** The completeness gate *)

Lemma truthy_opt_iff (o : option string) :
  truthy_opt o = true <-> Spec.present o.
Proof.
  unfold Spec.present. destruct o as [[|c s]|]; simpl; split; try discriminate.
  - intros [s [[= <-] H]]. contradiction.
  - intros _. exists (String c s). split; [reflexivity | discriminate].
  - reflexivity.
  - intros [s [H _]]. discriminate.
Qed.

Lemma complete_iff (r : one_res) : complete r = true <-> Spec.persistable r.
Proof.
  unfold complete, Spec.persistable.
  rewrite !andb_true_iff, <- !truthy_opt_iff.
  assert (S1 : truthy_str (cve_id r) = true <-> cve_id r <> "")
    by (destruct (cve_id r); simpl; split; congruence).
  assert (L1 : truthy_list (resources r) = true <-> resources r <> [])
    by (destruct (resources r); simpl; split; congruence).
  assert (L2 : truthy_list (CWEs r) = true <-> CWEs r <> [])
    by (destruct (CWEs r); simpl; split; congruence).
  assert (N1 : is_not_None (cvss r) = true <-> cvss r <> None)
    by (destruct (cvss r); simpl; split; congruence).
  tauto.
Qed.

Section GateFacts.

Variable network : string -> string -> nat -> response.
Variable rng : nat -> unit_draw.

Lemma item_record_gate (i : nat) (line : string) (r : one_res) :
  item_record network rng i line = Some r ->
  has_allowed_cwe (CWEs r) = true /\ Spec.persistable r.
Proof.
  unfold item_record.
  destruct (get_soup_default _ _ _ _) as [[doc|]|]; try discriminate.
  destruct (Extract.extract _ _) as [r1|]; [|discriminate].
  destruct (has_allowed_cwe (CWEs r1) && complete r1) eqn:G; [|discriminate].
  intros [= <-]. apply andb_true_iff in G as [G1 G2].
  split; [exact G1 | now apply complete_iff].
Qed.

Lemma loop_events_gate (already i : nat) (content : list string) (r : one_res) :
  In (EvAppend r) (loop_events network rng already i content) ->
  has_allowed_cwe (CWEs r) = true /\ Spec.persistable r.
Proof.
  revert i. induction content as [|line rest IH]; intros i; simpl; [tauto|].
  rewrite in_app_iff. intros [H|H]; [|now apply IH in H].
  destruct (i <=? already)%nat; [contradiction|].
  unfold item_events in H. destruct H as [H|H]; [discriminate|].
  destruct (item_record network rng i line) as [r1|] eqn:R; [|contradiction].
  destruct H as [[= <-]|[]]. now apply item_record_gate in R.
Qed.

End GateFacts.

(** C5: the record extracted for a link is appended to the record
    artifact exactly when it passes the taxonomy filter and has an
    identifier, a language and a published date that are not empty, at
    least one reference link, at least one classification code and a
    severity score, which may be the empty string.  A record without a
    published date is not written.  A run keeps the artifact within the
    records of this kind. *)
Theorem written_iff_passes_and_complete
        (network : string -> string -> nat -> response) (rng : nat -> unit_draw)
        (already i : nat) (line : string) (fs : files) (doc : soup)
        (r : one_res) :
  already < i ->
  get_soup_default network rng (prefix ++ PyStr.strip line)
                   (Some (prefix ++ "/vulnerability-database/"))
  = Returned (Some doc) ->
  Extract.extract doc
                  (fresh_one_res i (PyStr.last_segment "/" (PyStr.strip line)))
  = Some r ->
  let fs' := fst (process_item network rng already i line (fs, [])) in
  (records fs' = (records fs ++ [r])%list <->
   has_allowed_cwe (CWEs r) = true /\ Spec.persistable r) /\
  (records fs' = records fs \/ records fs' = (records fs ++ [r])%list) /\
  (date r = None -> records fs' = records fs) /\
  forall Year Month fs0,
    (forall x, In x (records fs0) ->
               has_allowed_cwe (CWEs x) = true /\ Spec.persistable x) ->
    forall x, In x (records (fs_after (step_one network rng Year Month fs0))) ->
              has_allowed_cwe (CWEs x) = true /\ Spec.persistable x.
Proof.
  intros Hi Hf He fs'.
  assert (E : records fs'
              = if has_allowed_cwe (CWEs r) && complete r
                then (records fs ++ [r])%list else records fs).
  { subst fs'. rewrite process_item_eq.
    destruct (Nat.leb_spec i already) as [L|_]; [lia|].
    cbn [fst]. rewrite records_append_all.
    unfold item_events, item_record. rewrite Hf, He.
    destruct (has_allowed_cwe (CWEs r) && complete r); simpl;
      [reflexivity | now rewrite app_nil_r]. }
  assert (D : (records fs ++ [r])%list <> records fs).
  { intros Q0. apply (f_equal (@length _)) in Q0.
    rewrite length_app in Q0. simpl in Q0. lia. }
  rewrite E. split; [|split; [|split]].
  - split.
    + intros Q0. destruct (has_allowed_cwe (CWEs r)); simpl in Q0;
        [|symmetry in Q0; contradiction].
      split; [reflexivity|]. apply complete_iff.
      destruct (complete r); [reflexivity | symmetry in Q0; contradiction].
    + intros [H1 H2]. apply complete_iff in H2. now rewrite H1, H2.
  - destruct (has_allowed_cwe (CWEs r) && complete r); auto.
  - intros Hd.
    assert (C0 : complete r = false)
      by (unfold complete; rewrite Hd; simpl;
          now rewrite !andb_false_r).
    rewrite C0. now rewrite andb_false_r.
  - intros Year Month fs0 H x Hx.
    destruct (step_one_shape network rng Year Month fs0)
      as [walk [content [_ [_ F]]]].
    rewrite F in Hx. apply in_app_or in Hx as [I|I]; [now apply H|].
    apply in_appended in I. now apply loop_events_gate in I.
Qed.

Lemma written_iff_passes_and_complete_scenario :
  let line := Scenario.link_A ++ PyStr.nl in
  let r := Scenario.record_A 1 in
  0 < 1 /\
  get_soup_default Scenario.network Scenario.rng (prefix ++ PyStr.strip line)
                   (Some (prefix ++ "/vulnerability-database/"))
  = Returned (Some Scenario.detail_A) /\
  Extract.extract Scenario.detail_A
                  (fresh_one_res 1 (PyStr.last_segment "/" (PyStr.strip line)))
  = Some r /\
  let fs' := fst (process_item Scenario.network Scenario.rng 0 1 line
                               (no_files, [])) in
  (records fs' = (records no_files ++ [r])%list <->
   has_allowed_cwe (CWEs r) = true /\ Spec.persistable r) /\
  (records fs' = records no_files \/
   records fs' = (records no_files ++ [r])%list) /\
  (date r = None -> records fs' = records no_files) /\
  forall Year Month fs0,
    (forall x, In x (records fs0) ->
               has_allowed_cwe (CWEs x) = true /\ Spec.persistable x) ->
    forall x, In x (records (fs_after (step_one Scenario.network Scenario.rng
                                                Year Month fs0))) ->
              has_allowed_cwe (CWEs x) = true /\ Spec.persistable x.
Proof.
  intros line r.
  split; [lia|]. split; [vm_compute; reflexivity|].
  split; [vm_compute; reflexivity|].
  apply (written_iff_passes_and_complete Scenario.network Scenario.rng
           0 1 line no_files Scenario.detail_A r).
  - lia.
  - vm_compute; reflexivity.
  - vm_compute; reflexivity.
Defined.

(** A record that passes the filter but has no published date. *)
Example no_date_no_record :
  let doc := Scenario.document
               [ Scenario.elem "h4" [Text "Language: Python"];
                 Scenario.div "reference-row"
                   [Scenario.anchor "https://github.com/o/r/commit/abc123" "fix"];
                 Scenario.div "light-box" [Scenario.anchor "/cwe" "CWE-798"] ] in
  let net := fun (url referer : string) (attempt : nat) => Fetched doc in
  process_item net Scenario.rng 0 1 Scenario.link_A (no_files, [])
  = (no_files, [EvFetchItem 1 (prefix ++ Scenario.link_A)]).
Proof. vm_compute. reflexivity. Qed.

(** ** The end-to-end scenario *)

(** C2: in the bucket of [Scenario], run without artifacts, the link log
    gets the three lines A, B, C in this order.  The record artifact does
    not get the record of A: A has the sequence index 0, which the item
    loop skips under the cursor 0 of a run without artifact, so A is not
    fetched and no artifact is created, although the detail page of A
    gives a record that passes the filter and is complete. *)
Theorem scenario_writes_no_record_for_A :
  let r := step_one Scenario.network Scenario.rng "2024" "1" no_files in
  log_file (fs_after r)
  = Some (lines_text [Scenario.link_A; Scenario.link_B; Scenario.link_C]) /\
  res_file (fs_after r) = None /\
  item_fetches (trace r)
  = [(1, prefix ++ Scenario.link_B); (2, prefix ++ Scenario.link_C)] /\
  Extract.extract Scenario.detail_A (fresh_one_res 0 "CVE-2024-0001")
  = Some (Scenario.record_A 0) /\
  has_allowed_cwe (CWEs (Scenario.record_A 0)) = true /\
  complete (Scenario.record_A 0) = true.
Proof. vm_compute. repeat split. Qed.

(** ** Missing landmarks *)

Lemma metric_rows_total (rows : list node) (r : one_res) :
  (forall tr, In tr rows ->
              Bs4.find "th" tr <> None /\ Bs4.find "td" tr <> None) ->
  exists r', Extract.metric_rows rows r = Some r'.
Proof.
  revert r. induction rows as [|tr rows IH]; intros r H; simpl.
  - now exists r.
  - destruct (H tr (or_introl eq_refl)) as [Hth Htd].
    destruct (Bs4.find "th" tr); [|contradiction].
    destruct (Bs4.find "td" tr); [|contradiction].
    destruct (metric_of_label _); apply IH; intros; apply H; simpl; auto.
Qed.

(** Extraction ends in an exception only on a metrics row that lacks a
    cell: without a metrics table, and with rows that all have their two
    cells, it gives a record. *)
Lemma extract_total (doc : soup) (r0 : one_res) :
  (forall table tr,
      Bs4.find_class "table" "table table-report" doc = Some table ->
      In tr (Bs4.find_all "tr" table) ->
      Bs4.find "th" tr <> None /\ Bs4.find "td" tr <> None) ->
  exists r, Extract.extract doc r0 = Some r.
Proof.
  intros H. unfold Extract.extract.
  destruct (Extract.headings doc) as [d l].
  destruct (Bs4.find_class "table" "table table-report" doc) as [table|].
  - match goal with
    | |- context [Extract.metric_rows ?rows ?r] =>
        destruct (metric_rows_total rows r (fun tr => H table tr eq_refl))
          as [r' ->]
    end.
    eexists; reflexivity.
  - eexists; reflexivity.
Qed.

(** A document without any landmark gives the defaults. *)
Example extract_of_empty_document :
  Extract.extract (Scenario.document []) (fresh_one_res 3 "CVE-2024-0009")
  = Some {| q_id := 3; cve_id := "CVE-2024-0009"; language := None;
            date := None; resources := []; CWEs := []; cvss := Some "";
            description := None;
            m_AV := None; m_AC := None; m_PR := None; m_UI := None;
            m_S := None; m_C := None; m_I := None; m_A := None |}.
Proof. reflexivity. Qed.

(** C7: a missing landmark leaves its field at the default and never
    makes the extraction of the item end in an exception.  The cells of a
    metrics row are read without a test: on a document whose metrics
    table has a row without a [th] cell the extraction raises, and the
    item loop drops the item, which with a table without rows is
    written. *)
Theorem extract_raises_on_row_without_th :
  let bad := Scenario.detail "CWE-798" [Scenario.bare_row] in
  let good := Scenario.detail "CWE-798" [] in
  let serve := fun (doc : soup) (url referer : string) (attempt : nat) =>
                 Fetched doc in
  Extract.extract bad (fresh_one_res 1 "CVE-2024-0001") = None /\
  process_item (serve bad) Scenario.rng 0 1 Scenario.link_A (no_files, [])
  = (no_files, [EvFetchItem 1 (prefix ++ Scenario.link_A)]) /\
  exists r,
    Extract.extract good (fresh_one_res 1 "CVE-2024-0001") = Some r /\
    m_AV r = None /\
    process_item (serve good) Scenario.rng 0 1 Scenario.link_A (no_files, [])
    = (append_res r no_files,
       [EvFetchItem 1 (prefix ++ Scenario.link_A); EvAppend r]).
Proof.
  split; [reflexivity|]. split; [vm_compute; reflexivity|].
  eexists. split; [vm_compute; reflexivity|].
  split; vm_compute; reflexivity.
Qed.

(** ** The listing walk *)

Lemma log_writes_app (tr tr' : list event) :
  log_writes (tr ++ tr') = log_writes tr + log_writes tr'.
Proof. unfold log_writes. now rewrite filter_app, length_app. Qed.

Lemma log_writes_none (tr : list event) :
  (forall c, ~ In (EvWriteLog c) tr) -> log_writes tr = 0.
Proof.
  induction tr as [|e tr IH]; intros H; [reflexivity|].
  unfold log_writes in *. simpl.
  destruct e as [p u|c|i u|r];
    try (apply IH; intros c' Hc; apply (H c'); simpl; auto).
  exfalso. apply (H c). now left.
Qed.

Section WalkFacts.

Variable network : string -> string -> nat -> response.
Variable rng : nat -> unit_draw.
Variables Year Month : string.

Lemma loop_events_no_walk (already i : nat) (content : list string) (e : event) :
  In e (loop_events network rng already i content) ->
  (forall c, e <> EvWriteLog c) /\ (forall p u, e <> EvFetchPage p u).
Proof.
  intros H. apply loop_events_index in H as [j [H _]].
  split; intros; intros ->; discriminate.
Qed.

End WalkFacts.

(** A listing whose page 2 cannot be fetched: the log holds the links
    of page 1. *)
Example failed_second_page_is_left_out :
  let net := fun (url referer : string) (attempt : nat) =>
               if String.eqb url (listing_url "2024" "1")
               then Fetched Scenario.page_1 else URLError in
  let r := step_one net Scenario.rng "2024" "1" no_files in
  log_file (fs_after r) = Some (lines_text [Scenario.link_A; Scenario.link_B]) /\
  log_writes (trace r) = 1.
Proof. vm_compute. split; reflexivity. Qed.

(** C10, the claim as it stands: the server answers page 1 with 429 at
    every attempt; the walk runs, and the log is not written. *)
Lemma failed_first_page_writes_no_log :
  ~ Spec.walk_writes_log always_429 (fun _ => zero_draw) "2024" "1" no_files.
Proof.
  intros H. destruct (H eq_refl) as [W _].
  vm_compute in W. discriminate.
Qed.

(** C10, amended: with a link log present, whatever its content, no page
    is fetched and the log is not written.  Without one, page 1 is
    fetched; when this fetch fails nothing is written and no item is
    processed; when it gives a document the log is written one time, with
    one link per line: the links of page 1 in document order, then those
    of the pages 2 to the maximum page number in this order, a page whose
    fetch failed adding none.  The maximum page number is 1 when the
    pagination control has no second-to-last entry or its text is not a
    number. *)
Theorem listing_walk
        (network : string -> string -> nat -> response) (rng : nat -> unit_draw)
        (Year Month : string) (fs : files) :
  let r := step_one network rng Year Month fs in
  match log_file fs with
  | Some text =>
      log_file (fs_after r) = Some text /\ log_writes (trace r) = 0 /\
      forall p u, ~ In (EvFetchPage p u) (trace r)
  | None =>
      match get_soup_default network rng (listing_url Year Month) None with
      | Returned (Some doc) =>
          log_file (fs_after r)
          = Some (lines_text (walk_links network rng Year Month doc)) /\
          log_writes (trace r) = 1
      | _ =>
          fs_after r = ensure_dirs ["logs"; "results"] fs /\
          trace r = [EvFetchPage 1 (listing_url Year Month)]
      end
  end /\
  (forall doc,
      second_to_last (Bs4.find_all_class "li" "vuln-pagination-item" doc) = None ->
      max_pagenumber doc = 1%Z) /\
  (forall doc li,
      second_to_last (Bs4.find_all_class "li" "vuln-pagination-item" doc)
      = Some li ->
      PyInt.int (PyStr.strip (Bs4.text li)) = None ->
      max_pagenumber doc = 1%Z).
Proof.
  intros r. split; [|split].
  - destruct (log_file fs) as [text|] eqn:L.
    + subst r. rewrite (step_one_with_log network rng Year Month fs text L).
      rewrite (crawl_items_eq _ _ _ _ text) by exact L.
      cbn [fs_after trace app]. rewrite log_file_append_all.
      split; [exact L|]. split.
      * apply log_writes_none. intros c Hc.
        apply loop_events_no_walk in Hc as [Hc _]. now apply (Hc c).
      * intros p u Hc.
        apply loop_events_no_walk in Hc as [_ Hc]. now apply (Hc p u).
    + subst r. unfold step_one.
      change (log_file (ensure_dirs ["logs"; "results"] fs)) with (log_file fs).
      rewrite L.
      destruct (get_soup_default network rng (listing_url Year Month) None)
        as [[doc|]|]; try (split; reflexivity).
      rewrite pages_loop_eq.
      rewrite (crawl_items_eq _ _ _ _
                 (lines_text (walk_links network rng Year Month doc)))
        by reflexivity.
      cbn [fs_after trace]. rewrite log_file_append_all.
      split; [reflexivity|].
      rewrite !log_writes_app.
      rewrite (log_writes_none (map _ _)).
      * rewrite (log_writes_none (loop_events _ _ _ _ _)); [reflexivity|].
        intros c Hc. apply loop_events_no_walk in Hc as [Hc _].
        now apply (Hc c).
      * intros c Hc. apply in_map_iff in Hc as [i [Hc _]]. discriminate.
  - intros doc H. unfold max_pagenumber. now rewrite H.
  - intros doc li H1 H2. unfold max_pagenumber. now rewrite H1, H2.
Qed.

(** ** Stage two *)

Section StageTwoFacts.

Variable api : string -> api_reply.

Lemma query_loop_step (query : string) (rest : list string)
      (fetchs : list patch) (errors : list string) :
  query_loop api (query :: rest) fetchs errors
  = match turn_of api query with
    | Success p => query_loop api rest (fetchs ++ [p])%list errors
    | DataNull => query_loop api rest fetchs (errors ++ [query])%list
    | Failed => query_loop api rest fetchs errors
    | Abort => (true, fetchs, errors)
    end.
Proof.
  cbn [query_loop]. unfold turn_of.
  destruct (api query) as [| |data]; try reflexivity.
  destruct (PyJson.all_keys _ data) as [[|]|]; try reflexivity.
  destruct (make_patch data); reflexivity.
Qed.

(** The loop ends with the entries and the errors of the turns that
    ended, added in order to what it started with. *)
Lemma query_loop_eq (querys : list string) (fetchs : list patch)
      (errors : list string) :
  query_loop api querys fetchs errors
  = (existsb (aborts api) querys,
     (fetchs ++ successes api (handled api querys))%list,
     (errors ++ data_null api (handled api querys))%list).
Proof.
  revert fetchs errors.
  induction querys as [|query rest IH]; intros fetchs errors.
  - simpl. now rewrite !app_nil_r.
  - rewrite query_loop_step. cbn [handled existsb].
    assert (A : aborts api query
                = match turn_of api query with Abort => true | _ => false end)
      by reflexivity.
    assert (S1 : forall l, successes api (query :: l)
                           = (match turn_of api query with
                              | Success p => [p]
                              | _ => []
                              end ++ successes api l)%list)
      by reflexivity.
    assert (D1 : forall l, data_null api (query :: l)
                           = if match turn_of api query with
                                | DataNull => true
                                | _ => false
                                end
                             then query :: data_null api l
                             else data_null api l)
      by reflexivity.
    rewrite !A.
    destruct (turn_of api query) as [p| | |] eqn:T; cbn [orb].
    + rewrite IH, S1, D1, <- app_assoc. reflexivity.
    + rewrite IH, S1, D1, <- app_assoc. reflexivity.
    + rewrite IH, S1, D1. reflexivity.
    + simpl. now rewrite !app_nil_r.
Qed.

End StageTwoFacts.

Lemma handled_all (api : string -> api_reply) (querys : list string) :
  existsb (aborts api) querys = false -> handled api querys = querys.
Proof.
  induction querys as [|query rest IH]; simpl; [reflexivity|].
  destruct (aborts api query); [discriminate|].
  intros H. now rewrite IH.
Qed.

(** C9: without a record artifact [step_two] returns and leaves every
    file as it is.  With one, however the query loop is left, the
    enrichment artifact is written with the entries and the error ledger
    with the key-less queries, one per line, of the turns that ended
    before the loop was left, whatever the two files held before; a loop
    that was not left by an exception ended the turn of every query. *)
Theorem step_two_writes_on_exit (api : string -> api_reply) (fs : files) :
  let out := step_two api fs in
  match res_file fs with
  | None =>
      out = (false, ensure_dirs ["crawl_result"] fs) /\
      log_file (snd out) = log_file fs /\ res_file (snd out) = None /\
      patch_file (snd out) = patch_file fs /\
      error_file (snd out) = error_file fs
  | Some CVES =>
      let querys := querys_of CVES in
      let done := handled api querys in
      fst out = existsb (aborts api) querys /\
      patch_file (snd out) = Some (successes api done) /\
      error_file (snd out) = Some (lines_text (data_null api done)) /\
      log_file (snd out) = log_file fs /\ res_file (snd out) = Some CVES /\
      (fst out = false -> done = querys)
  end.
Proof.
  intros out. subst out. unfold step_two.
  change (res_file (ensure_dirs ["crawl_result"] fs)) with (res_file fs).
  destruct (res_file fs) as [CVES|] eqn:R.
  - rewrite query_loop_eq. cbn [fst snd app].
    repeat split; try reflexivity; try exact R.
    intros H. now apply handled_all.
  - simpl. repeat split; exact R.
Qed.

(** Three queries of which the second lacks [files]: the entries of the
    first and the third are written, and the ledger holds the second. *)
Example enrichment_partial_failure :
  step_two Enrichment.api
           (Enrichment.bucket [Enrichment.commit_link "ccc";
                               Enrichment.commit_link "bbb";
                               Enrichment.commit_link "eee"])
  = (false,
     write_patch_and_errors
       [Enrichment.full_patch "ccc"; Enrichment.full_patch "eee"]
       (lines_text [Enrichment.query "bbb"])
       (ensure_dirs ["crawl_result"]
          (Enrichment.bucket [Enrichment.commit_link "ccc";
                              Enrichment.commit_link "bbb";
                              Enrichment.commit_link "eee"]))).
Proof. vm_compute. reflexivity. Qed.

(** C8: the query of a call that fails is recorded in the error ledger,
    and no failure ends the batch.  The handler of the failed call only
    prints: with the queries aaa (the call fails), bbb (no [files]) and
    ccc the ledger holds bbb alone.  And a response that has the four
    required keys but no [sha] raises outside the inner [try]: with the
    queries ccc, ddd (no [sha]) and bbb the loop is left at ddd, the
    exception leaves [step_two], and bbb is never asked. *)
Theorem call_failure_is_not_recorded :
  let links1 := [Enrichment.commit_link "aaa"; Enrichment.commit_link "bbb";
                 Enrichment.commit_link "ccc"] in
  let links2 := [Enrichment.commit_link "ccc"; Enrichment.commit_link "ddd";
                 Enrichment.commit_link "bbb"] in
  let out1 := step_two Enrichment.api (Enrichment.bucket links1) in
  let out2 := step_two Enrichment.api (Enrichment.bucket links2) in
  querys_of (records (Enrichment.bucket links1))
  = [Enrichment.query "aaa"; Enrichment.query "bbb"; Enrichment.query "ccc"] /\
  call_failures Enrichment.api
                (querys_of (records (Enrichment.bucket links1)))
  = [Enrichment.query "aaa"] /\
  fst out1 = false /\
  error_file (snd out1) = Some (lines_text [Enrichment.query "bbb"]) /\
  patch_file (snd out1) = Some [Enrichment.full_patch "ccc"] /\
  fst out2 = true /\
  error_file (snd out2) = Some "" /\
  patch_file (snd out2) = Some [Enrichment.full_patch "ccc"].
Proof. vm_compute. repeat split. Qed.

(** * Further properties of the code *)

(** ** The fetch primitive *)

Section FetcherMore.

Variable network : string -> string -> nat -> response.
Variable rng : nat -> unit_draw.

Lemma get_soup_loop_first_success (url referer : string) (base_delay : Q)
      (doc : soup) (n : nat) :
  (0 <= base_delay)%Q ->
  forall remaining attempt slept,
    n < remaining ->
    network url referer (attempt + n) = Fetched doc ->
    (forall a, a < n -> is_fetched (network url referer (attempt + a)) = false) ->
    get_soup_loop network rng url referer base_delay remaining attempt slept
    = (Returned (Some doc),
       (slept ++ map (fun a => retry_delay rng base_delay a
                                           (network url referer a))
                     (seq attempt n))%list).
Proof.
  intros Hb. induction n as [|n IH]; intros remaining attempt slept Hn Hd Hf.
  - destruct remaining as [|m]; [lia|]. cbn [get_soup_loop].
    rewrite Nat.add_0_r in Hd. rewrite Hd. simpl. now rewrite app_nil_r.
  - destruct remaining as [|m]; [lia|]. cbn [get_soup_loop].
    pose proof (Hf 0 ltac:(lia)) as H0. rewrite Nat.add_0_r in H0.
    pose proof (retry_delay_nonneg rng base_delay attempt
                  (network url referer attempt) Hb) as D.
    apply Qle_bool_iff in D.
    assert (E : get_soup_loop network rng url referer base_delay m (S attempt)
                  (slept ++ [retry_delay rng base_delay attempt
                                         (network url referer attempt)])
                = (Returned (Some doc),
                   ((slept ++ [retry_delay rng base_delay attempt
                                           (network url referer attempt)])
                    ++ map (fun a => retry_delay rng base_delay a
                                                 (network url referer a))
                           (seq (S attempt) n))%list)).
    { apply IH; [lia | |].
      - now replace (S attempt + n) with (attempt + S n) by lia.
      - intros a Ha. replace (S attempt + a) with (attempt + S a) by lia.
        apply Hf. lia. }
    cbn [seq map]. rewrite <- app_assoc in E. cbn [app] in E.
    destruct (network url referer attempt) as [d|code| |];
      [discriminate H0 | rewrite D; exact E ..].
Qed.

Lemma get_soup_loop_bounded (url referer : string) (base_delay : Q) :
  (0 <= base_delay)%Q ->
  forall remaining attempt slept,
  exists res sl,
    get_soup_loop network rng url referer base_delay remaining attempt slept
    = (Returned res, (slept ++ sl)%list) /\
    length sl <= remaining /\
    (res = None -> length sl = remaining) /\
    Forall (fun d => (0 <= d)%Q) sl.
Proof.
  intros Hb. induction remaining as [|m IH]; intros attempt slept.
  - exists None, []. cbn [get_soup_loop]. rewrite app_nil_r. auto.
  - cbn [get_soup_loop].
    pose proof (retry_delay_nonneg rng base_delay attempt
                  (network url referer attempt) Hb) as D.
    pose proof D as D'. apply Qle_bool_iff in D'.
    destruct (IH (S attempt)
                 (slept ++ [retry_delay rng base_delay attempt
                                        (network url referer attempt)])%list)
      as [res [sl [E [L [N F]]]]].
    destruct (network url referer attempt) as [d|code| |] eqn:R.
    + exists (Some d), []. rewrite app_nil_r.
      repeat split; simpl; auto; try lia; try discriminate.
    + exists res, (retry_delay rng base_delay attempt (HTTPError code) :: sl).
      rewrite D', E, <- app_assoc.
      repeat split; simpl; auto; try lia; intros H; now rewrite N.
    + exists res, (retry_delay rng base_delay attempt URLError :: sl).
      rewrite D', E, <- app_assoc.
      repeat split; simpl; auto; try lia; intros H; now rewrite N.
    + exists res, (retry_delay rng base_delay attempt OtherException :: sl).
      rewrite D', E, <- app_assoc.
      repeat split; simpl; auto; try lia; intros H; now rewrite N.
Qed.

End FetcherMore.





(** X3: a negative [base_delay] makes a connection error at the first
    attempt end the call with the [ValueError] of [time.sleep], before
    any sleep and any retry. *)
Theorem get_soup_negative_base_raises
        (network : string -> string -> nat -> response) (rng : nat -> unit_draw)
        (url : string) (referer : option string)
        (max_retries : Z) (base_delay : Q) :
  (base_delay < 0)%Q -> (0 < max_retries)%Z ->
  network url (referer_header referer) 0 = URLError ->
  get_soup network rng url referer max_retries base_delay = (Raised, []).
Proof.
  intros Hb Hm Hn. unfold get_soup.
  destruct (Z.to_nat max_retries) as [|m] eqn:M; [lia|].
  cbn [get_soup_loop]. rewrite Hn. cbn [retry_delay].
  destruct (Qle_bool 0 (base_delay + inject_Z (Z.of_nat 0))) eqn:B;
    [|reflexivity].
  apply Qle_bool_iff in B. exfalso.
  apply (Qlt_not_le _ _ Hb).
  apply Qle_trans with (base_delay + inject_Z (Z.of_nat 0))%Q; [exact B|].
  change (inject_Z (Z.of_nat 0)) with 0%Q. rewrite Qplus_0_r. apply Qle_refl.
Qed.

Lemma get_soup_negative_base_raises_example :
  (-(1#2) < 0)%Q /\ (0 < 5)%Z /\
  (fun (_ _ : string) (_ : nat) => URLError) "u" (referer_header None) 0
  = URLError /\
  get_soup (fun _ _ _ => URLError) Scenario.rng "u" None 5 (-(1#2))
  = (Raised, []).
Proof.
  split; [reflexivity|]. split; [lia|]. split; [reflexivity|].
  apply (get_soup_negative_base_raises (fun _ _ _ => URLError) Scenario.rng
           "u" None 5 (-(1#2))); [reflexivity | lia | reflexivity].
Defined.

(** ** Taxonomy filter *)

Lemma has_allowed_cwe_existsb (cwe_texts : list string) :
  has_allowed_cwe cwe_texts = existsb text_allowed cwe_texts.
Proof.
  induction cwe_texts as [|t rest IH]; simpl; [reflexivity|].
  unfold text_allowed at 1. destruct (re_search_cwe t) as [g|]; [|exact IH].
  destruct (in_allowed g); [reflexivity | exact IH].
Qed.

(** X4: the filter is true exactly when, for some text of the list, the
    leftmost occurrence of [CWE-] followed by a digit has its whole run
    of digits in the allow-set; later occurrences in the same text and
    text around the tag play no role. *)
Theorem filter_true_iff_some_first_tag_allowed (cwe_texts : list string) :
  has_allowed_cwe cwe_texts = true <->
  exists t g, In t cwe_texts /\ Spec.first_tag t g /\ In g ALLOWED_CWE_IDS.
Proof. apply has_allowed_cwe_first_tag. Qed.

(** X5: the early return of the filter makes no difference to its
    answer: it is the disjunction over the texts, so it distributes over
    concatenation and does not depend on the order or the repetition of
    the texts; the empty list is rejected. *)
Theorem filter_is_disjunction (l1 l2 : list string) :
  has_allowed_cwe (l1 ++ l2) = has_allowed_cwe l1 || has_allowed_cwe l2 /\
  has_allowed_cwe (rev l1) = has_allowed_cwe l1 /\
  has_allowed_cwe (l1 ++ l1) = has_allowed_cwe l1 /\
  has_allowed_cwe [] = false.
Proof.
  rewrite !has_allowed_cwe_existsb. repeat split.
  - apply existsb_app.
  - induction l1 as [|t l IH]; [reflexivity|].
    simpl. rewrite existsb_app, IH. simpl.
    now rewrite orb_false_r, orb_comm.
  - rewrite existsb_app. now destruct (existsb text_allowed l1).
Qed.

(** ** Extraction *)

Lemma metric_rows_keeps (rows : list node) (r r' : one_res) :
  Extract.metric_rows rows r = Some r' ->
  cve_id r' = cve_id r /\ cvss r' = cvss r /\ language r' = language r /\
  date r' = date r /\ resources r' = resources r.
Proof.
  revert r. induction rows as [|tr rows IH]; intros r; simpl.
  - intros [= <-]. auto.
  - destruct (Bs4.find "th" tr); [|discriminate].
    destruct (Bs4.find "td" tr); [|discriminate].
    destruct (metric_of_label _); intros H; apply IH in H; exact H.
Qed.

Lemma cwe_numbers_mention_cwe (doc : soup) :
  Forall (fun t => PyStr.contains "CWE" t = true) (Extract.cwe_numbers doc).
Proof.
  unfold Extract.cwe_numbers. apply Forall_forall. intros t Ht.
  apply in_flat_map in Ht as [div [_ Ht]].
  apply in_map_iff in Ht as [link [<- Hl]].
  now apply filter_In in Hl as [_ Hl].
Qed.

Lemma extract_fields (doc : soup) (r0 r : one_res) :
  Extract.extract doc r0 = Some r ->
  q_id r = q_id r0 /\ cve_id r = cve_id r0 /\
  cvss r = Some (Extract.severity_score doc) /\
  CWEs r = Extract.cwe_numbers doc /\
  Forall (fun t => PyStr.contains "CWE" t = true) (CWEs r).
Proof.
  intros H. split; [now apply extract_q_id in H|].
  unfold Extract.extract in H. destruct (Extract.headings doc) as [d l].
  destruct (Bs4.find_class "table" "table table-report" doc) as [table|].
  - destruct (Extract.metric_rows _ _) as [r2|] eqn:M; [|discriminate].
    injection H as <-. cbn [cve_id cvss CWEs].
    apply metric_rows_keeps in M as [M1 [M2 _]]. cbn in M1, M2.
    rewrite M1, M2. repeat split. apply cwe_numbers_mention_cwe.
  - injection H as <-. cbn [cve_id cvss CWEs].
    repeat split. apply cwe_numbers_mention_cwe.
Qed.

(** X6: an extraction that ends without exception keeps the sequence
    index and the identifier it was given, sets the severity score to a
    string (never to [None]), and collects only classification codes
    whose text contains [CWE]. *)
Theorem extract_keeps_index_and_identifier
        (doc : soup) (r0 r : one_res) :
  Extract.extract doc r0 = Some r ->
  q_id r = q_id r0 /\ cve_id r = cve_id r0 /\
  cvss r = Some (Extract.severity_score doc) /\
  CWEs r = Extract.cwe_numbers doc /\
  Forall (fun t => PyStr.contains "CWE" t = true) (CWEs r).
Proof. apply extract_fields. Qed.

Lemma extract_keeps_index_and_identifier_scenario :
  Extract.extract Scenario.detail_A (fresh_one_res 4 "CVE-2024-0001")
  = Some (Scenario.record_A 4) /\
  q_id (Scenario.record_A 4) = q_id (fresh_one_res 4 "CVE-2024-0001") /\
  cve_id (Scenario.record_A 4) = cve_id (fresh_one_res 4 "CVE-2024-0001") /\
  cvss (Scenario.record_A 4)
  = Some (Extract.severity_score Scenario.detail_A) /\
  CWEs (Scenario.record_A 4) = Extract.cwe_numbers Scenario.detail_A /\
  Forall (fun t => PyStr.contains "CWE" t = true) (CWEs (Scenario.record_A 4)).
Proof.
  split; [vm_compute; reflexivity|].
  apply (extract_keeps_index_and_identifier Scenario.detail_A
           (fresh_one_res 4 "CVE-2024-0001") (Scenario.record_A 4)).
  vm_compute; reflexivity.
Defined.

Lemma has_allowed_cwe_nonempty (cwe_texts : list string) :
  has_allowed_cwe cwe_texts = true -> truthy_list cwe_texts = true.
Proof. destruct cwe_texts; [discriminate | reflexivity]. Qed.

(** X7: for a record that an extraction gave and that passes the filter,
    two of the six tests before the write cannot fail: the list of codes
    is not empty and the severity score is not [None].  Such a record is
    written exactly when its identifier, language, date and reference
    links are not empty. *)
Theorem gate_after_filter (doc : soup) (r0 r : one_res) :
  Extract.extract doc r0 = Some r ->
  has_allowed_cwe (CWEs r) = true ->
  complete r
  = truthy_str (cve_id r) && truthy_opt (language r) && truthy_opt (date r)
    && truthy_list (resources r).
Proof.
  intros He Hf. unfold complete.
  apply extract_fields in He as [_ [_ [Hc _]]].
  rewrite Hc, (has_allowed_cwe_nonempty _ Hf). simpl.
  now rewrite !andb_true_r.
Qed.

Lemma gate_after_filter_scenario :
  Extract.extract Scenario.detail_A (fresh_one_res 4 "CVE-2024-0001")
  = Some (Scenario.record_A 4) /\
  has_allowed_cwe (CWEs (Scenario.record_A 4)) = true /\
  complete (Scenario.record_A 4)
  = truthy_str (cve_id (Scenario.record_A 4))
    && truthy_opt (language (Scenario.record_A 4))
    && truthy_opt (date (Scenario.record_A 4))
    && truthy_list (resources (Scenario.record_A 4)).
Proof.
  split; [vm_compute; reflexivity|]. split; [reflexivity|].
  apply (gate_after_filter Scenario.detail_A (fresh_one_res 4 "CVE-2024-0001")
           (Scenario.record_A 4)); [vm_compute; reflexivity | reflexivity].
Defined.

(** ** Stage one, run after run *)

Lemma filter_filter_weaker {A : Type} (f g : A -> bool) (l : list A) :
  (forall x, f x = true -> g x = true) ->
  filter f (filter g l) = filter f l.
Proof.
  intros H. induction l as [|x l IH]; simpl; [reflexivity|].
  destruct (g x) eqn:G; simpl.
  - now rewrite IH.
  - destruct (f x) eqn:F; [|exact IH].
    apply H in F. congruence.
Qed.

Lemma filter_none {A : Type} (f : A -> bool) (l : list A) :
  (forall x, In x l -> f x = false) -> filter f l = [].
Proof.
  induction l as [|x l IH]; intros H; simpl; [reflexivity|].
  rewrite (H x) by (simpl; auto). apply IH. intros; apply H; simpl; auto.
Qed.

Lemma filter_all {A : Type} (f : A -> bool) (l : list A) :
  (forall x, In x l -> f x = true) -> filter f l = l.
Proof.
  induction l as [|x l IH]; intros H; simpl; [reflexivity|].
  rewrite (H x) by (simpl; auto). f_equal. apply IH. intros; apply H; simpl; auto.
Qed.

Lemma sorted_last_is_greatest (l : list one_res) (x : one_res) :
  StronglySorted lt (map q_id (l ++ [x])) ->
  forall y, In y (l ++ [x]) -> q_id y <= q_id x.
Proof.
  induction l as [|a l IH]; simpl; intros S y Hy.
  - destruct Hy as [<-|[]]. lia.
  - apply StronglySorted_inv in S as [S F].
    destruct Hy as [->|Hy]; [|now apply IH].
    rewrite Forall_forall in F.
    assert (q_id y < q_id x); [|lia].
    apply F. apply in_map. apply in_or_app. right. now left.
Qed.

Lemma ensure_dirs_keeps (paths : list string) (ds : list string) (p : string) :
  In p ds -> In p (fold_left (fun ds p => makedirs p ds) paths ds).
Proof.
  revert ds. induction paths as [|q paths IH]; intros ds H; simpl; [exact H|].
  apply IH. unfold makedirs. destruct (existsb (String.eqb q) ds); [exact H|].
  apply in_or_app. now left.
Qed.

Lemma makedirs_present (p : string) (ds : list string) :
  In p ds -> makedirs p ds = ds.
Proof.
  intros H. unfold makedirs.
  destruct (existsb (String.eqb p) ds) eqn:E; [reflexivity|].
  exfalso. apply Bool.not_true_iff_false in E. apply E.
  apply existsb_exists. exists p. split; [exact H | apply String.eqb_refl].
Qed.

Lemma makedirs_adds (p : string) (ds : list string) : In p (makedirs p ds).
Proof.
  unfold makedirs. destruct (existsb (String.eqb p) ds) eqn:E.
  - apply existsb_exists in E as [q [Hq E]].
    apply String.eqb_eq in E. now subst.
  - apply in_or_app. right. now left.
Qed.

Lemma ensure_dirs_all_present (paths ds : list string) :
  (forall p, In p paths -> In p ds) ->
  fold_left (fun ds p => makedirs p ds) paths ds = ds.
Proof.
  revert ds. induction paths as [|q paths IH]; intros ds H; simpl; [reflexivity|].
  rewrite makedirs_present by (apply H; now left).
  apply IH. intros p Hp. apply H. now right.
Qed.

Lemma ensure_dirs_creates (paths ds : list string) (p : string) :
  In p paths -> In p (fold_left (fun ds p => makedirs p ds) paths ds).
Proof.
  revert ds. induction paths as [|q paths IH]; intros ds H; simpl; [destruct H|].
  destruct H as [->|H]; [|now apply IH].
  apply ensure_dirs_keeps. apply makedirs_adds.
Qed.

(** X8: [ensure_dirs] creates every directory of its list, keeps the
    directories there are, touches no file, and a second call changes
    nothing. *)
Theorem ensure_dirs_idempotent (paths : list string) (fs : files) :
  (forall p, In p paths -> In p (dirs (ensure_dirs paths fs))) /\
  (forall p, In p (dirs fs) -> In p (dirs (ensure_dirs paths fs))) /\
  same_files (ensure_dirs paths fs) fs /\
  ensure_dirs paths (ensure_dirs paths fs) = ensure_dirs paths fs.
Proof.
  split; [|split; [|split]].
  - intros p H. now apply ensure_dirs_creates.
  - intros p H. now apply ensure_dirs_keeps.
  - repeat split.
  - unfold ensure_dirs at 1. cbn [dirs log_file res_file patch_file error_file].
    rewrite ensure_dirs_all_present.
    + reflexivity.
    + intros p H. now apply ensure_dirs_creates.
Qed.

Lemma ensure_dirs_present (paths : list string) (fs : files) :
  (forall p, In p paths -> In p (dirs fs)) -> ensure_dirs paths fs = fs.
Proof.
  intros H. unfold ensure_dirs. rewrite ensure_dirs_all_present by exact H.
  now destruct fs.
Qed.

Lemma dirs_append_all (rs : list one_res) (fs : files) :
  dirs (append_all rs fs) = dirs fs.
Proof.
  revert fs. induction rs as [|r rs IH]; intros fs; simpl; [reflexivity|].
  unfold append_all in IH. now rewrite IH.
Qed.

Lemma res_file_append_all (rs : list one_res) (fs : files) :
  rs <> [] -> res_file (append_all rs fs) = Some (records fs ++ rs)%list.
Proof.
  revert fs. induction rs as [|r rs IH]; intros fs H; [contradiction|].
  change (append_all (r :: rs) fs) with (append_all rs (append_res r fs)).
  destruct rs as [|r' rs].
  - unfold records. simpl. now destruct (res_file fs).
  - rewrite IH by discriminate. f_equal.
    unfold records, append_res; simpl.
    destruct (res_file fs); simpl; [rewrite <- app_assoc|]; reflexivity.
Qed.

Lemma other_files_append_all (rs : list one_res) (fs : files) :
  patch_file (append_all rs fs) = patch_file fs /\
  error_file (append_all rs fs) = error_file fs.
Proof.
  revert fs. induction rs as [|r rs IH]; intros fs; [auto|].
  change (append_all (r :: rs) fs) with (append_all rs (append_res r fs)).
  destruct (IH (append_res r fs)) as [-> ->]. auto.
Qed.

Section RunFacts.

Variable network : string -> string -> nat -> response.
Variable rng : nat -> unit_draw.

Lemma appended_item_events (i : nat) (line : string) :
  appended (item_events network rng i line)
  = match item_record network rng i line with Some r => [r] | None => [] end.
Proof.
  unfold item_events. simpl. now destruct (item_record network rng i line).
Qed.

(** The records of one pass come with strictly increasing indices. *)
Lemma loop_events_sorted (already i : nat) (content : list string) :
  StronglySorted lt
    (map q_id (appended (loop_events network rng already i content))).
Proof.
  revert i. induction content as [|line rest IH]; intros i;
    cbn [loop_events]; [constructor|].
  rewrite appended_app, map_app.
  assert (T : Forall (lt i)
                (map q_id (appended (loop_events network rng already (S i) rest)))).
  { apply Forall_forall. intros j Hj.
    apply in_map_iff in Hj as [r [<- Hr]]. apply in_appended in Hr.
    apply loop_events_index in Hr as [j [[= <-] [_ H]]]. lia. }
  destruct (i <=? already)%nat; [exact (IH (S i))|].
  rewrite appended_item_events.
  destruct (item_record network rng i line) as [r|] eqn:R; [|exact (IH (S i))].
  apply item_record_q_id in R. simpl. rewrite R.
  constructor; [exact (IH (S i)) | exact T].
Qed.

Lemma loop_events_above (a b i : nat) (content : list string) :
  a <= b ->
  loop_events network rng b i content
  = filter (index_above b) (loop_events network rng a i content).
Proof.
  intros H.
  rewrite <- (loop_events_filter network rng b i content).
  rewrite <- (loop_events_filter network rng a i content).
  symmetry. apply filter_filter_weaker.
  intros e. unfold index_above. destruct (event_index e) as [j|]; [|auto].
  rewrite !Nat.ltb_lt. lia.
Qed.

(** After a pass, a pass under the cursor it left appends nothing. *)
Lemma second_pass_appends_nothing (fs : files) (content : list string) :
  let A := appended (loop_events network rng (already_query_qid fs) 0 content) in
  appended (loop_events network rng (already_query_qid (append_all A fs))
                        0 content) = [].
Proof.
  intros A. destruct (rev A) as [|x l'] eqn:RA.
  - assert (A = []) as E.
    { apply (f_equal (@rev _)) in RA. now rewrite rev_involutive in RA. }
    rewrite E. exact E.
  - assert (EA : A = (rev l' ++ [x])%list).
    { apply (f_equal (@rev _)) in RA. now rewrite rev_involutive in RA. }
    assert (C : already_query_qid (append_all A fs) = q_id x).
    { unfold already_query_qid.
      rewrite res_file_append_all by (rewrite EA; now destruct (rev l')).
      now rewrite rev_app_distr, RA. }
    assert (L : already_query_qid fs < q_id x).
    { assert (I : In x A) by (rewrite EA; apply in_or_app; right; now left).
      apply in_appended in I.
      apply loop_events_index in I as [j [[= <-] [H _]]]. exact H. }
    rewrite C.
    rewrite (loop_events_above (already_query_qid fs) (q_id x)) by lia.
    rewrite appended_filter. fold A.
    apply filter_none. intros y Hy. apply Nat.ltb_ge.
    rewrite EA in Hy. apply (sorted_last_is_greatest (rev l') x); [|exact Hy].
    rewrite <- EA. apply loop_events_sorted.
Qed.

End RunFacts.

Lemma item_fetches_app (tr tr' : list event) :
  item_fetches (tr ++ tr') = (item_fetches tr ++ item_fetches tr')%list.
Proof. unfold item_fetches. apply flat_map_app. Qed.

Lemma sorted_app (l1 l2 : list nat) :
  StronglySorted lt l1 -> StronglySorted lt l2 ->
  (forall x y, In x l1 -> In y l2 -> x < y) ->
  StronglySorted lt (l1 ++ l2).
Proof.
  intros S1 S2 H. induction l1 as [|a l1 IH]; simpl; [exact S2|].
  apply StronglySorted_inv in S1 as [S1 F]. constructor.
  - apply IH; [exact S1|]. intros x y Hx Hy. apply H; simpl; auto.
  - apply Forall_app. split; [exact F|].
    apply Forall_forall. intros y Hy. apply H; simpl; auto.
Qed.

Lemma filter_above_skipn (a i : nat) (content : list string) :
  filter (fun p : nat * string => (a <? fst p)%nat)
         (combine (seq i (length content)) content)
  = skipn (S a - i) (combine (seq i (length content)) content).
Proof.
  revert i. induction content as [|line rest IH]; intros i;
    cbn [length seq combine filter fst].
  - now rewrite skipn_nil.
  - destruct (Nat.ltb_spec a i) as [L|L].
    + replace (S a - i) with 0 by lia. cbn [skipn]. f_equal.
      rewrite IH. now replace (S a - S i) with 0 by lia.
    + rewrite IH. destruct (S a - i) as [|k] eqn:K; [lia|].
      cbn [skipn]. now replace (S a - S i) with k by lia.
Qed.

Section StageOneMore.

Variable network : string -> string -> nat -> response.
Variable rng : nat -> unit_draw.
Variables Year Month : string.

(** The three ways a call of [step_one] goes. *)
Lemma step_one_cases (fs : files) :
  let fs1 := ensure_dirs ["logs"; "results"] fs in
  (exists text,
      log_file fs = Some text /\
      step_one network rng Year Month fs = crawl_items network rng (fs1, [])) \/
  (log_file fs = None /\
   get_soup_default network rng (listing_url Year Month) None = Returned None /\
   step_one network rng Year Month fs
   = {| raised := false; fs_after := fs1;
        trace := [EvFetchPage 1 (listing_url Year Month)] |}) \/
  (exists doc,
      log_file fs = None /\
      get_soup_default network rng (listing_url Year Month) None
      = Returned (Some doc) /\
      let text := lines_text (walk_links network rng Year Month doc) in
      step_one network rng Year Month fs
      = crawl_items network rng
          (write_log text fs1,
           ((EvFetchPage 1 (listing_url Year Month)
             :: map (fun i => EvFetchPage i (page_url Year Month i))
                    (later_pages (max_pagenumber doc)))
            ++ [EvWriteLog text])%list)).
Proof.
  intros fs1. destruct (log_file fs) as [text|] eqn:L.
  - left. exists text. split; [reflexivity|].
    now apply step_one_with_log with (text := text).
  - right. unfold step_one.
    change (log_file (ensure_dirs ["logs"; "results"] fs)) with (log_file fs).
    rewrite L.
    destruct (get_soup_default_returns network rng (listing_url Year Month) None)
      as [res E].
    rewrite E. destruct res as [doc|].
    + right. exists doc. split; [reflexivity|]. split; [reflexivity|].
      rewrite pages_loop_eq. reflexivity.
    + left. auto.
Qed.

Lemma item_fetches_item_events (i : nat) (line : string) :
  item_fetches (item_events network rng i line)
  = [(i, prefix ++ PyStr.strip line)].
Proof.
  unfold item_events. simpl. now destruct (item_record network rng i line).
Qed.

Lemma loop_events_fetches (a i : nat) (content : list string) :
  item_fetches (loop_events network rng a i content)
  = map (fun p => (fst p, prefix ++ PyStr.strip (snd p)))
        (filter (fun p : nat * string => (a <? fst p)%nat)
                (combine (seq i (length content)) content)).
Proof.
  revert i. induction content as [|line rest IH]; intros i;
    cbn [loop_events]; [reflexivity|].
  rewrite item_fetches_app, IH. cbn [length seq combine filter fst].
  destruct (Nat.leb_spec i a) as [L|L];
    destruct (Nat.ltb_spec a i) as [L'|L']; try lia.
  - reflexivity.
  - rewrite item_fetches_item_events. reflexivity.
Qed.

Lemma item_record_cve_id (i : nat) (line : string) (r : one_res) :
  item_record network rng i line = Some r ->
  cve_id r = PyStr.last_segment "/" (PyStr.strip line).
Proof.
  unfold item_record.
  destruct (get_soup_default _ _ _ _) as [[doc|]|]; try discriminate.
  destruct (Extract.extract _ _) as [r1|] eqn:E; [|discriminate].
  destruct (has_allowed_cwe (CWEs r1) && complete r1); [|discriminate].
  intros [= <-].
  now apply extract_fields in E as [_ [E _]].
Qed.

Lemma loop_events_provenance (a i : nat) (content : list string) (r : one_res) :
  In r (appended (loop_events network rng a i content)) ->
  exists line,
    i <= q_id r /\ nth_error content (q_id r - i) = Some line /\
    item_record network rng (q_id r) line = Some r /\
    In (EvFetchItem (q_id r) (prefix ++ PyStr.strip line))
       (loop_events network rng a i content).
Proof.
  revert i. induction content as [|line rest IH]; intros i;
    cbn [loop_events]; [intros []|].
  rewrite appended_app. intros H. apply in_app_or in H as [H|H].
  - destruct (i <=? a)%nat; [destruct H|].
    rewrite appended_item_events in H.
    destruct (item_record network rng i line) as [r1|] eqn:R; [|destruct H].
    destruct H as [<-|[]]. pose proof (item_record_q_id _ _ _ _ _ R) as Q0.
    exists line. rewrite Q0, Nat.sub_diag.
    repeat split; auto. apply in_or_app. left. now left.
  - destruct (IH _ H) as [l [L [N [R I]]]]. exists l.
    split; [lia|]. split; [|split; [exact R|]].
    + replace (q_id r - i) with (S (q_id r - S i)) by lia. exact N.
    + apply in_or_app. now right.
Qed.

End StageOneMore.

Section StageOneRuns.

Variable network : string -> string -> nat -> response.
Variable rng : nat -> unit_draw.
Variables Year Month : string.

(** What the item loop leaves, for a start without appended record. *)
Lemma crawl_items_facts (fsb : files) (tr : list event) (text : string) :
  log_file fsb = Some text -> appended tr = [] ->
  let r := crawl_items network rng (fsb, tr) in
  appended (trace r)
  = appended (loop_events network rng (already_query_qid fsb) 0
                          (PyStr.readlines text)) /\
  fs_after r = append_all (appended (trace r)) fsb.
Proof.
  intros L N r. subst r. rewrite (crawl_items_eq _ _ _ _ text L).
  cbn [trace fs_after]. rewrite appended_app, N. auto.
Qed.

(** A call of [step_one] ends with the files a base state gets by the
    appended records; the base state differs from the start by the
    directories and the link log only.  When there is a link log at the
    end, the trace ends with the events of the item loop over it. *)
Lemma step_one_base (fs : files) :
  let r := step_one network rng Year Month fs in
  exists fsb,
    res_file fsb = res_file fs /\ patch_file fsb = patch_file fs /\
    error_file fsb = error_file fs /\
    (forall p, In p ["logs"; "results"] -> In p (dirs fsb)) /\
    fs_after r = append_all (appended (trace r)) fsb /\
    ((log_file fsb = None /\ appended (trace r) = []) \/
     exists text walk,
       log_file fsb = Some text /\ appended walk = [] /\
       trace r
       = (walk ++ loop_events network rng (already_query_qid fs) 0
                              (PyStr.readlines text))%list).
Proof.
  intros r.
  pose (fs1 := ensure_dirs ["logs"; "results"] fs).
  assert (D : forall p, In p ["logs"; "results"] -> In p (dirs fs1))
    by (intros p Hp; now apply ensure_dirs_creates).
  assert (K : forall fsb tr text,
             log_file fsb = Some text -> appended tr = [] ->
             already_query_qid fsb = already_query_qid fs ->
             r = crawl_items network rng (fsb, tr) ->
             fs_after r = append_all (appended (trace r)) fsb /\
             exists text walk,
               log_file fsb = Some text /\ appended walk = [] /\
               trace r
               = (walk ++ loop_events network rng (already_query_qid fs) 0
                                      (PyStr.readlines text))%list).
  { intros fsb tr text L N Q0 E.
    destruct (crawl_items_facts fsb tr text L N) as [_ B].
    rewrite <- E in B. split; [exact B|].
    exists text, tr. split; [exact L|]. split; [exact N|].
    rewrite E, (crawl_items_eq _ _ _ _ text L). cbn [trace]. now rewrite Q0. }
  destruct (step_one_cases network rng Year Month fs)
    as [[text [L E]]|[[L [F E]]|[doc [L [F E]]]]]; fold r in E.
  - exists fs1. destruct (K fs1 [] text L eq_refl eq_refl E) as [B T].
    repeat split; auto.
  - exists fs1. rewrite E. repeat split; auto.
  - cbv zeta in E.
    set (text := lines_text (walk_links network rng Year Month doc)) in *.
    exists (write_log text fs1).
    match type of E with
    | _ = crawl_items network rng (_, ?t) =>
        destruct (K (write_log text fs1) t text eq_refl) as [B T];
          [|reflexivity|exact E|repeat split; auto]
    end.
    rewrite appended_app. simpl. rewrite app_nil_r.
    apply appended_no_index. intros e He. apply in_map_iff in He as [i [<- _]].
    reflexivity.
Qed.

End StageOneRuns.

(** X9: [step_one] only appends to the record artifact and leaves the
    enrichment artifact and the error ledger alone.  The records of one
    call come with strictly increasing sequence indices, all above the
    cursor read at the start, so an artifact whose indices increase
    strictly keeps this order. *)
Theorem step_one_appends_in_order
        (network : string -> string -> nat -> response) (rng : nat -> unit_draw)
        (Year Month : string) (fs : files) :
  let r := step_one network rng Year Month fs in
  let new := appended (trace r) in
  records (fs_after r) = (records fs ++ new)%list /\
  StronglySorted lt (map q_id new) /\
  (forall x, In x new -> already_query_qid fs < q_id x) /\
  patch_file (fs_after r) = patch_file fs /\
  error_file (fs_after r) = error_file fs /\
  (StronglySorted lt (map q_id (records fs)) ->
   StronglySorted lt (map q_id (records (fs_after r)))).
Proof.
  intros r new.
  destruct (step_one_base network rng Year Month fs)
    as [fsb [R [P [E [_ [F C]]]]]].
  fold r in F, C. fold new in F, C.
  assert (S1 : StronglySorted lt (map q_id new) /\
               forall x, In x new -> already_query_qid fs < q_id x).
  { destruct C as [[_ N]|[text [walk [_ [N T]]]]].
    - rewrite N. split; [constructor | intros x []].
    - unfold new. rewrite T, appended_app, N. cbn [app].
      split; [apply loop_events_sorted|].
      intros x Hx. apply in_appended in Hx.
      apply loop_events_index in Hx as [j [[= <-] [H _]]]. exact H. }
  destruct S1 as [S1 S2].
  assert (RR : records (fs_after r) = (records fs ++ new)%list).
  { rewrite F, records_append_all. unfold records. now rewrite R. }
  split; [exact RR|]. split; [exact S1|]. split; [exact S2|].
  rewrite F. destruct (other_files_append_all new fsb) as [-> ->].
  split; [exact P|]. split; [exact E|].
  intros S0. rewrite <- F, RR, map_app.
  apply sorted_app; [exact S0 | exact S1|].
  intros x y Hx Hy. apply in_map_iff in Hy as [ry [<- Hy]].
  apply S2 in Hy. apply in_map_iff in Hx as [rx [<- Hx]].
  assert (q_id rx <= already_query_qid fs); [|lia].
  unfold already_query_qid, records in *.
  destruct (res_file fs) as [rs|]; [|destruct Hx].
  destruct (rev rs) as [|z l'] eqn:RV.
  - apply (f_equal (@rev _)) in RV. rewrite rev_involutive in RV.
    subst rs. destruct Hx.
  - apply (f_equal (@rev _)) in RV. rewrite rev_involutive in RV.
    simpl in RV. subst rs.
    now apply (sorted_last_is_greatest (rev l') z).
Qed.

(** X10: a second call of [step_one] under the same server leaves the
    files exactly as the first call left them: it appends no record, and
    neither the link log nor a directory changes. *)
Theorem step_one_rerun_changes_nothing
        (network : string -> string -> nat -> response) (rng : nat -> unit_draw)
        (Year Month : string) (fs : files) :
  let first := step_one network rng Year Month fs in
  let second := step_one network rng Year Month (fs_after first) in
  fs_after second = fs_after first /\ appended (trace second) = [] /\
  log_writes (trace second) = 0.
Proof.
  intros first second.
  pose (fs1 := ensure_dirs ["logs"; "results"] fs).
  assert (D : forall p, In p ["logs"; "results"] -> In p (dirs fs1))
    by (intros p Hp; now apply ensure_dirs_creates).
  assert (K : forall fsb tr text,
             log_file fsb = Some text -> appended tr = [] ->
             (forall p, In p ["logs"; "results"] -> In p (dirs fsb)) ->
             first = crawl_items network rng (fsb, tr) ->
             fs_after second = fs_after first /\ appended (trace second) = [] /\
             log_writes (trace second) = 0).
  { intros fsb tr text L N Dp E.
    destruct (crawl_items_facts network rng fsb tr text L N) as [A B].
    rewrite <- E in A, B.
    assert (L2 : log_file (fs_after first) = Some text)
      by (rewrite B, log_file_append_all; exact L).
    subst second.
    rewrite (step_one_with_log network rng Year Month _ text L2).
    rewrite ensure_dirs_present
      by (intros p Hp; rewrite B, dirs_append_all; now apply Dp).
    rewrite (crawl_items_eq _ _ _ _ text L2). cbn [fs_after trace app].
    assert (Z0 : appended (loop_events network rng
                             (already_query_qid (fs_after first)) 0
                             (PyStr.readlines text)) = []).
    { rewrite B, A. apply second_pass_appends_nothing. }
    rewrite Z0. split; [reflexivity|]. split; [reflexivity|].
    apply log_writes_none. intros c Hc.
    apply loop_events_no_walk in Hc as [Hc _]. now apply (Hc c). }
  destruct (step_one_cases network rng Year Month fs)
    as [[text [L E]]|[[L [F E]]|[doc [L [F E]]]]]; fold first in E.
  - apply (K fs1 [] text); auto.
  - subst second. rewrite E. cbn [fs_after]. fold fs1.
    destruct (step_one_cases network rng Year Month fs1)
      as [[text [L1 _]]|[[_ [_ E1]]|[doc [_ [F1 _]]]]].
    + change (log_file fs1) with (log_file fs) in L1. congruence.
    + rewrite E1. cbn [fs_after trace].
      rewrite ensure_dirs_present by exact D. auto.
    + congruence.
  - eapply K; [| | |exact E].
    + reflexivity.
    + rewrite appended_app. simpl. rewrite app_nil_r.
      apply appended_no_index. intros e He. apply in_map_iff in He as [i [<- _]].
      reflexivity.
    + exact D.
Qed.

(** X11: with a link log present, [step_one] fetches every link whose
    index lies above the cursor exactly one time, in the order of the
    log, whatever becomes of the item; the address is the site prefix
    followed by the line without the white space around it. *)
Theorem step_one_fetches_each_link_once
        (network : string -> string -> nat -> response) (rng : nat -> unit_draw)
        (Year Month : string) (fs : files) (text : string) :
  log_file fs = Some text ->
  item_fetches (trace (step_one network rng Year Month fs))
  = map (fun p => (fst p, prefix ++ PyStr.strip (snd p)))
        (skipn (S (already_query_qid fs)) (indexed (PyStr.readlines text))).
Proof.
  intros L. rewrite (step_one_with_log network rng Year Month fs text L).
  rewrite (crawl_items_eq _ _ _ _ text) by exact L. cbn [trace app].
  change (already_query_qid (ensure_dirs ["logs"; "results"] fs))
    with (already_query_qid fs).
  rewrite loop_events_fetches, filter_above_skipn.
  now rewrite Nat.sub_0_r.
Qed.

Lemma step_one_fetches_each_link_once_scenario :
  let fs := {| dirs := []; patch_file := None; error_file := None;
               log_file := Some (lines_text [Scenario.link_B; Scenario.link_A;
                                             Scenario.link_C]);
               res_file := None |} in
  log_file fs
  = Some (lines_text [Scenario.link_B; Scenario.link_A; Scenario.link_C]) /\
  item_fetches (trace (step_one Scenario.network Scenario.rng "2024" "1" fs))
  = map (fun p => (fst p, prefix ++ PyStr.strip (snd p)))
        (skipn (S (already_query_qid fs))
               (indexed (PyStr.readlines
                           (lines_text [Scenario.link_B; Scenario.link_A;
                                        Scenario.link_C])))).
Proof.
  intros fs. split; [reflexivity|].
  apply (step_one_fetches_each_link_once Scenario.network Scenario.rng
           "2024" "1" fs). reflexivity.
Defined.

(** X12: every record that [step_one] appends comes from the line of the
    link log at the record's sequence index: its identifier is the last
    path segment of that line, the item was fetched from that line's
    address, and the log with that line is there after the call. *)
Theorem appended_record_comes_from_its_line
        (network : string -> string -> nat -> response) (rng : nat -> unit_draw)
        (Year Month : string) (fs : files) (r : one_res) :
  In r (appended (trace (step_one network rng Year Month fs))) ->
  exists text line,
    log_file (fs_after (step_one network rng Year Month fs)) = Some text /\
    nth_error (PyStr.readlines text) (q_id r) = Some line /\
    cve_id r = PyStr.last_segment "/" (PyStr.strip line) /\
    In (q_id r, prefix ++ PyStr.strip line)
       (item_fetches (trace (step_one network rng Year Month fs))).
Proof.
  intros H.
  destruct (step_one_base network rng Year Month fs)
    as [fsb [_ [_ [_ [_ [F C]]]]]].
  destruct C as [[_ N]|[text [walk [L [N T]]]]]; [rewrite N in H; destruct H|].
  rewrite T, appended_app, N in H. cbn [app] in H.
  apply loop_events_provenance in H as [line [_ [P [R I]]]].
  rewrite Nat.sub_0_r in P.
  exists text, line. split; [now rewrite F, log_file_append_all|].
  split; [exact P|]. split; [now apply item_record_cve_id in R|].
  apply in_item_fetches. rewrite T. apply in_or_app. now right.
Qed.

Lemma appended_record_comes_from_its_line_scenario :
  let fs := {| dirs := []; patch_file := None; error_file := None;
               log_file := Some (lines_text [Scenario.link_B; Scenario.link_A;
                                             Scenario.link_C]);
               res_file := None |} in
  let run1 := step_one Scenario.network Scenario.rng "2024" "1" fs in
  In (Scenario.record_A 1) (appended (trace run1)) /\
  exists text line,
    log_file (fs_after run1) = Some text /\
    nth_error (PyStr.readlines text) (q_id (Scenario.record_A 1)) = Some line /\
    cve_id (Scenario.record_A 1) = PyStr.last_segment "/" (PyStr.strip line) /\
    In (q_id (Scenario.record_A 1), prefix ++ PyStr.strip line)
       (item_fetches (trace run1)).
Proof.
  intros fs run1.
  assert (H : In (Scenario.record_A 1) (appended (trace run1)))
    by (vm_compute; left; reflexivity).
  split; [exact H|].
  apply (appended_record_comes_from_its_line Scenario.network Scenario.rng
           "2024" "1" fs (Scenario.record_A 1) H).
Defined.

(** ** The link log, written and read *)

Lemma rstrip_line_end (s : string) :
  PyStr.rstrip (s ++ PyStr.nl) = PyStr.rstrip s.
Proof.
  induction s as [|c s IH]; [reflexivity|].
  change (String c s ++ PyStr.nl) with (String c (s ++ PyStr.nl)).
  cbn [PyStr.rstrip]. now rewrite IH.
Qed.

Lemma strip_line_end (s : string) :
  PyStr.strip (s ++ PyStr.nl) = PyStr.strip s.
Proof.
  unfold PyStr.strip. induction s as [|c s IH]; [reflexivity|].
  change (String c s ++ PyStr.nl) with (String c (s ++ PyStr.nl)).
  cbn [PyStr.lstrip]. destruct (PyStr.is_space c); [exact IH|].
  apply (rstrip_line_end (String c s)).
Qed.

(** X13: the links written to the link log are read back one per line,
    in the order written, when no link contains a line end; the line end
    that each line carries is removed with the white space around the
    link, so the item loop sees the links as they were found, up to white
    space at their ends. *)
Theorem link_log_round_trip (links : list string) :
  Forall (fun l => PyStr.line_free l = true) links ->
  PyStr.readlines (lines_text links) = map (fun l => l ++ PyStr.nl) links /\
  map PyStr.strip (PyStr.readlines (lines_text links)) = map PyStr.strip links /\
  length (PyStr.readlines (lines_text links)) = length links.
Proof.
  intros H. pose proof (readlines_lines_text links H) as E.
  split; [exact E|]. rewrite E. split.
  - rewrite map_map. apply map_ext. intros l. apply strip_line_end.
  - apply length_map.
Qed.

Lemma link_log_round_trip_scenario :
  Forall (fun l => PyStr.line_free l = true)
         [Scenario.link_A; Scenario.link_B; Scenario.link_C] /\
  PyStr.readlines (lines_text [Scenario.link_A; Scenario.link_B; Scenario.link_C])
  = map (fun l => l ++ PyStr.nl)
        [Scenario.link_A; Scenario.link_B; Scenario.link_C] /\
  map PyStr.strip
      (PyStr.readlines
         (lines_text [Scenario.link_A; Scenario.link_B; Scenario.link_C]))
  = map PyStr.strip [Scenario.link_A; Scenario.link_B; Scenario.link_C] /\
  length (PyStr.readlines
            (lines_text [Scenario.link_A; Scenario.link_B; Scenario.link_C]))
  = length [Scenario.link_A; Scenario.link_B; Scenario.link_C].
Proof.
  assert (H : Forall (fun l => PyStr.line_free l = true)
                     [Scenario.link_A; Scenario.link_B; Scenario.link_C])
    by (repeat constructor).
  split; [exact H|].
  apply (link_log_round_trip
           [Scenario.link_A; Scenario.link_B; Scenario.link_C] H).
Defined.

Lemma seq_sorted (a n : nat) : StronglySorted lt (seq a n).
Proof.
  revert a. induction n as [|n IH]; intros a; simpl; constructor.
  - apply IH.
  - apply Forall_forall. intros x Hx. apply in_seq in Hx. lia.
Qed.

(** X14: the pages fetched after page 1 are the pages 2 to the maximum
    page number, each one time and in increasing order; a maximum page
    number of 1 or less, also a negative one, gives no further page. *)
Theorem later_pages_are_two_to_max (max_page : Z) :
  (forall p, In p (later_pages max_page) <-> (2 <= Z.of_nat p <= max_page)%Z) /\
  StronglySorted lt (later_pages max_page) /\
  ((max_page <= 1)%Z -> later_pages max_page = []).
Proof.
  unfold later_pages. destruct (Z.ltb_spec 1 max_page) as [L|L].
  - split; [|split; [apply seq_sorted | lia]].
    intros p. rewrite in_seq. lia.
  - split; [|split; [constructor | reflexivity]].
    intros p. simpl. lia.
Qed.

(** ** The request headers *)

(** X15: the headers built for a request have eight distinct names.  The
    [Referer] is the one given, and the address of the database when
    none or the empty string is given, so it is never empty; the
    [User-Agent] is one of the four of the pool. *)
Theorem build_headers_referer_and_agent (choice : nat) (referer : option string) :
  choice < length uas ->
  let hdrs := _build_headers choice referer in
  NoDup (map fst hdrs) /\ length hdrs = 8 /\
  Bs4.assoc "Referer" hdrs = Some (referer_header referer) /\
  referer_header referer <> "" /\
  (forall r, referer = Some r -> r <> "" -> referer_header referer = r) /\
  (referer = None \/ referer = Some "" ->
   referer_header referer = "https://www.mend.io/vulnerability-database/") /\
  exists ua, Bs4.assoc "User-Agent" hdrs = Some ua /\ In ua uas.
Proof.
  intros Hc hdrs. split; [|split; [reflexivity|split; [reflexivity|]]].
  - simpl. repeat constructor; simpl; intuition discriminate.
  - split; [|split; [|split]].
    + destruct referer as [[|c r]|]; discriminate.
    + intros r -> Hr. destruct r; [contradiction | reflexivity].
    + intros [-> | ->]; reflexivity.
    + exists (nth choice uas ""). split; [reflexivity|]. now apply nth_In.
Qed.

Lemma build_headers_referer_and_agent_example :
  2 < length uas /\
  let hdrs := _build_headers 2 (Some "") in
  NoDup (map fst hdrs) /\ length hdrs = 8 /\
  Bs4.assoc "Referer" hdrs = Some (referer_header (Some "")) /\
  referer_header (Some "") <> "" /\
  (forall r, Some "" = Some r -> r <> "" -> referer_header (Some "") = r) /\
  (Some "" = None \/ Some "" = Some "" ->
   referer_header (Some "") = "https://www.mend.io/vulnerability-database/") /\
  exists ua, Bs4.assoc "User-Agent" hdrs = Some ua /\ In ua uas.
Proof.
  split; [simpl; lia|].
  apply (build_headers_referer_and_agent 2 (Some "")). simpl; lia.
Defined.

(** ** Stage two *)

Lemma replace_absent (old new s : string) :
  PyStr.contains old s = false -> PyStr.replace old new s = s.
Proof.
  unfold PyStr.replace. induction s as [|c s IH]; [reflexivity|].
  cbn [PyStr.contains PyStr.replace_from]. intros H.
  apply orb_false_iff in H as [H1 H2]. rewrite H1. f_equal. now apply IH.
Qed.

(** X16: a reference link is taken as a query when it contains [commit]
    and [github] anywhere; when it contains neither [/commit/] nor
    [https://github.com/] the query is the link itself, unchanged. *)
Theorem to_query_without_patterns (res : string) :
  PyStr.contains "/commit/" res = false ->
  PyStr.contains "https://github.com/" res = false ->
  to_query res = res /\
  forall CVE, resources CVE = [res] ->
              PyStr.contains "commit" res = true ->
              PyStr.contains "github" res = true ->
              querys_of [CVE] = [res].
Proof.
  intros H1 H2.
  assert (E : to_query res = res).
  { unfold to_query. rewrite (replace_absent "/commit/" _ res H1).
    now apply replace_absent. }
  split; [exact E|]. intros CVE R C G.
  unfold querys_of. simpl. rewrite R. simpl. rewrite C, G. simpl.
  now rewrite E.
Qed.

Lemma to_query_without_patterns_example :
  let res := "http://github.com/o/r/commits/abc" in
  PyStr.contains "/commit/" res = false /\
  PyStr.contains "https://github.com/" res = false /\
  to_query res = res /\
  forall CVE, resources CVE = [res] ->
              PyStr.contains "commit" res = true ->
              PyStr.contains "github" res = true ->
              querys_of [CVE] = [res].
Proof.
  intros res. split; [reflexivity|]. split; [reflexivity|].
  apply (to_query_without_patterns res); reflexivity.
Defined.

Lemma handled_not_aborted (api : string -> api_reply) (querys : list string)
      (q : string) :
  In q (handled api querys) -> aborts api q = false.
Proof.
  induction querys as [|query rest IH]; simpl; [tauto|].
  destruct (aborts api query) eqn:A; [intros []|].
  intros [<-|H]; [exact A | now apply IH].
Qed.


(** X18: a response that is not a JSON object never gives an entry: a
    number, a boolean or [null] ends the loop with the [TypeError] of the
    key test, and an array or a string either goes to the error ledger or
    ends the loop at the first subscript. *)
Theorem non_object_response_gives_no_entry
        (api : string -> api_reply) (query : string) (data : json) :
  api query = Parsed data ->
  (forall members, data <> JObj members) ->
  (forall p, turn_of api query <> Success p) /\
  (turn_of api query = DataNull \/ turn_of api query = Abort) /\
  match data with
  | JNull | JBool _ | JNum _ => turn_of api query = Abort
  | _ => True
  end.
Proof.
  intros H N. unfold turn_of. rewrite H.
  destruct data as [|b|n|s|items|members];
    try (simpl; repeat split; auto; discriminate).
  - destruct (PyJson.all_keys _ (JStr s)) as [[|]|];
      simpl; repeat split; auto; discriminate.
  - destruct (PyJson.all_keys _ (JArr items)) as [[|]|];
      simpl; repeat split; auto; discriminate.
  - exfalso. now apply (N members).
Qed.

Lemma non_object_response_gives_no_entry_example :
  let api := fun (_ : string) => Parsed (JArr [JStr "url"; JStr "html_url";
                                              JStr "commit"; JStr "files"]) in
  let data := JArr [JStr "url"; JStr "html_url"; JStr "commit"; JStr "files"] in
  api "q" = Parsed data /\
  (forall members, data <> JObj members) /\
  (forall p, turn_of api "q" <> Success p) /\
  (turn_of api "q" = DataNull \/ turn_of api "q" = Abort) /\
  True.
Proof.
  intros api data. split; [reflexivity|].
  assert (N : forall members, data <> JObj members) by (intros m; discriminate).
  split; [exact N|].
  apply (non_object_response_gives_no_entry api "q" data eq_refl N).
Defined.

(** X19: [step_two] writes its two files anew from the record artifact:
    a second call under the same responses gives the same outcome and the
    same files as the first, whatever the first call left. *)
Theorem step_two_rerun_changes_nothing (api : string -> api_reply) (fs : files) :
  step_two api (snd (step_two api fs)) = step_two api fs.
Proof.
  assert (D : forall p, In p ["crawl_result"] ->
                        In p (dirs (ensure_dirs ["crawl_result"] fs)))
    by (intros p Hp; now apply ensure_dirs_creates).
  destruct (res_file fs) as [CVES|] eqn:R.
  - destruct (query_loop api (querys_of CVES) [] []) as [[exc fetchs] errors] eqn:Q.
    assert (E : step_two api fs
                = (exc, write_patch_and_errors fetchs (lines_text errors)
                          (ensure_dirs ["crawl_result"] fs))).
    { unfold step_two.
      change (res_file (ensure_dirs ["crawl_result"] fs)) with (res_file fs).
      now rewrite R, Q. }
    rewrite E. cbn [snd]. unfold step_two.
    rewrite ensure_dirs_present by exact D.
    change (res_file (write_patch_and_errors fetchs (lines_text errors)
                        (ensure_dirs ["crawl_result"] fs)))
      with (res_file fs).
    rewrite R, Q. reflexivity.
  - assert (E : step_two api fs = (false, ensure_dirs ["crawl_result"] fs)).
    { unfold step_two.
      change (res_file (ensure_dirs ["crawl_result"] fs)) with (res_file fs).
      now rewrite R. }
    rewrite E. cbn [snd]. unfold step_two.
    rewrite ensure_dirs_present by exact D.
    change (res_file (ensure_dirs ["crawl_result"] fs)) with (res_file fs).
    now rewrite R.
Qed.

(** ** The files of a bucket and the directories *)

Lemma same_files_refl (a : files) : same_files a a.
Proof. repeat split. Qed.

Lemma same_files_sym (a b : files) : same_files a b -> same_files b a.
Proof. intros [H1 [H2 [H3 H4]]]. repeat split; congruence. Qed.

Lemma same_files_trans (a b c : files) :
  same_files a b -> same_files b c -> same_files a c.
Proof.
  intros [H1 [H2 [H3 H4]]] [K1 [K2 [K3 K4]]]. repeat split; congruence.
Qed.

Lemma append_all_same_files (rs : list one_res) (x y : files) :
  same_files x y -> same_files (append_all rs x) (append_all rs y).
Proof.
  revert x y. induction rs as [|r rs IH]; intros x y H; [exact H|].
  change (append_all (r :: rs) x) with (append_all rs (append_res r x)).
  change (append_all (r :: rs) y) with (append_all rs (append_res r y)).
  apply IH. destruct H as [H1 [H2 [H3 H4]]].
  unfold append_res. repeat split; simpl; rewrite ?H2; congruence.
Qed.

Lemma already_query_qid_same (x y : files) :
  same_files x y -> already_query_qid x = already_query_qid y.
Proof. intros [_ [H _]]. unfold already_query_qid. now rewrite H. Qed.

Section FilesOnly.

Variable network : string -> string -> nat -> response.
Variable rng : nat -> unit_draw.
Variables Year Month : string.

Lemma crawl_items_written (fsb : files) (tr : list event) (text : string) :
  crawl_items network rng (write_log text fsb, tr)
  = {| raised := false;
       fs_after :=
         append_all
           (appended (loop_events network rng (already_query_qid fsb) 0
                                  (PyStr.readlines text)))
           (write_log text fsb);
       trace := (tr ++ loop_events network rng (already_query_qid fsb) 0
                                   (PyStr.readlines text))%list |}.
Proof. exact (crawl_items_eq _ _ (write_log text fsb) tr text eq_refl). Qed.

Lemma step_one_never_raises (fs : files) :
  raised (step_one network rng Year Month fs) = false.
Proof.
  destruct (step_one_cases network rng Year Month fs)
    as [[text [L E]]|[[L [F E]]|[doc [L [F E]]]]]; rewrite E.
  - now rewrite (crawl_items_eq _ _ (ensure_dirs ["logs"; "results"] fs)
                   _ text L).
  - reflexivity.
  - cbv zeta. now rewrite crawl_items_written.
Qed.

(** The files [step_one] leaves depend on the files it finds, not on the
    directories. *)
Lemma step_one_files_only (v v' : files) :
  same_files v v' ->
  same_files (fs_after (step_one network rng Year Month v))
             (fs_after (step_one network rng Year Month v')).
Proof.
  intros H. pose proof H as [HL _].
  pose proof (already_query_qid_same v v' H) as HA.
  assert (H1 : same_files (ensure_dirs ["logs"; "results"] v)
                          (ensure_dirs ["logs"; "results"] v'))
    by (destruct H as [? [? [? ?]]]; repeat split; assumption).
  destruct (step_one_cases network rng Year Month v)
    as [[text [L E]]|[[L [F E]]|[doc [L [F E]]]]];
    destruct (step_one_cases network rng Year Month v')
      as [[text' [L' E']]|[[L' [F' E']]|[doc' [L' [F' E']]]]];
    try congruence; rewrite E, E'.
  - assert (text' = text) as -> by congruence.
    rewrite (crawl_items_eq _ _ (ensure_dirs ["logs"; "results"] v) _ text L),
      (crawl_items_eq _ _ (ensure_dirs ["logs"; "results"] v') _ text L').
    cbn [fs_after].
    change (already_query_qid (ensure_dirs ["logs"; "results"] v))
      with (already_query_qid v).
    change (already_query_qid (ensure_dirs ["logs"; "results"] v'))
      with (already_query_qid v').
    rewrite HA. now apply append_all_same_files.
  - exact H1.
  - assert (doc' = doc) as -> by congruence. cbv zeta.
    rewrite !crawl_items_written. cbn [fs_after].
    change (already_query_qid (ensure_dirs ["logs"; "results"] v))
      with (already_query_qid v).
    change (already_query_qid (ensure_dirs ["logs"; "results"] v'))
      with (already_query_qid v').
    rewrite HA. apply append_all_same_files.
    destruct H1 as [? [? [? ?]]]. repeat split; assumption.
Qed.

End FilesOnly.

Lemma step_two_files_only (api : string -> api_reply) (v v' : files) :
  same_files v v' ->
  fst (step_two api v) = fst (step_two api v') /\
  same_files (snd (step_two api v)) (snd (step_two api v')).
Proof.
  intros [H1 [H2 [H3 H4]]]. unfold step_two.
  change (res_file (ensure_dirs ["crawl_result"] v)) with (res_file v).
  change (res_file (ensure_dirs ["crawl_result"] v')) with (res_file v').
  rewrite <- H2. destruct (res_file v) as [CVES|] eqn:R.
  - destruct (query_loop api (querys_of CVES) [] []) as [[exc fetchs] errors].
    split; [reflexivity|]. repeat split; simpl; congruence.
  - split; [reflexivity|]. repeat split; simpl; congruence.
Qed.

(** ** The driver *)

Lemma distinct_NoDup (l : list string) : distinct l = true -> NoDup l.
Proof.
  induction l as [|x l IH]; simpl; intros H; constructor.
  - apply andb_true_iff in H as [H _]. apply negb_true_iff in H.
    intros I. apply Bool.not_true_iff_false in H. apply H.
    apply existsb_exists. exists x. split; [exact I | apply String.eqb_refl].
  - apply andb_true_iff in H as [_ H]. now apply IH.
Qed.

Lemma main_buckets_distinct : NoDup (map key main_buckets).
Proof. apply distinct_NoDup. vm_compute. reflexivity. Qed.

Lemma up_to_first_incl {A : Type} (stops : A -> bool) (l : list A) (x : A) :
  In x (up_to_first stops l) -> In x l.
Proof.
  induction l as [|y l IH]; simpl; [tauto|].
  destruct (stops y); simpl; intuition.
Qed.

Lemma up_to_first_ext {A : Type} (f g : A -> bool) (l : list A) :
  (forall x, In x l -> f x = g x) -> up_to_first f l = up_to_first g l.
Proof.
  induction l as [|y l IH]; intros H; simpl; [reflexivity|].
  rewrite (H y) by (simpl; auto). destruct (g y); [reflexivity|].
  f_equal. apply IH. intros; apply H; simpl; auto.
Qed.

Lemma existsb_ext_in {A : Type} (f g : A -> bool) (l : list A) :
  (forall x, In x l -> f x = g x) -> existsb f l = existsb g l.
Proof.
  induction l as [|y l IH]; intros H; simpl; [reflexivity|].
  rewrite (H y) by (simpl; auto). f_equal. apply IH. intros; apply H; simpl; auto.
Qed.

Lemma up_to_first_never {A : Type} (f : A -> bool) (l : list A) :
  existsb f l = false -> up_to_first f l = l.
Proof.
  induction l as [|y l IH]; simpl; [reflexivity|].
  destruct (f y); [discriminate|]. intros H. now rewrite IH.
Qed.

Lemma view_same (d : disk) (k : string) : same_files (view d k) (bucket d k).
Proof. repeat split. Qed.

Section SweepFacts.

Variable stage : disk -> string -> string -> bool * disk.
Variable F : string -> string -> files -> files.
Variable E : string -> string -> files -> bool.

Hypothesis stage_eq :
  forall d Y M,
    stage d Y M = (E Y M (view d (YM Y M)),
                   update d (YM Y M) (F Y M (view d (YM Y M)))).
Hypothesis F_files :
  forall Y M v v', same_files v v' -> same_files (F Y M v) (F Y M v').
Hypothesis E_files :
  forall Y M v v', same_files v v' -> E Y M v = E Y M v'.

(** A sweep runs the stage for the buckets up to the first one whose
    call raises; each of these ends with the files the stage gives for
    the files it had at the start, and every other bucket is as before. *)
Lemma sweep_spec (buckets : list (string * string)) (d : disk) :
  NoDup (map key buckets) ->
  let out := sweep stage buckets d in
  fst out = existsb (stops_at E d) buckets /\
  (forall b, In b (up_to_first (stops_at E d) buckets) ->
             same_files (bucket (snd out) (key b))
                        (F (fst b) (snd b) (view d (key b)))) /\
  (forall k, ~ In k (map key (up_to_first (stops_at E d) buckets)) ->
             bucket (snd out) k = bucket d k).
Proof.
  revert d. induction buckets as [|[Y M] rest IH]; intros d ND out.
  - subst out. simpl. split; [reflexivity|].
    split; [intros b [] | reflexivity].
  - apply NoDup_cons_iff in ND as [NI ND]. subst out.
    cbn [sweep up_to_first existsb]. rewrite stage_eq.
    change (stops_at E d (Y, M)) with (E Y M (view d (YM Y M))).
    set (d' := update d (YM Y M) (F Y M (view d (YM Y M)))).
    assert (U : forall k, k <> YM Y M -> bucket d' k = bucket d k).
    { intros k Hk. unfold d', update. cbn [bucket].
      destruct (String.eqb_spec k (YM Y M)); [contradiction | reflexivity]. }
    assert (U0 : bucket d' (YM Y M) = F Y M (view d (YM Y M))).
    { unfold d', update. cbn [bucket]. now rewrite String.eqb_refl. }
    destruct (E Y M (view d (YM Y M))) eqn:EX.
    + cbn [fst snd orb]. split; [reflexivity|]. split.
      * intros b [<-|[]]. change (key (Y, M)) with (YM Y M).
        rewrite U0. apply same_files_refl.
      * intros k Hk. apply U. intros Q0. apply Hk. left.
        symmetry. exact Q0.
    + cbn [orb].
      assert (V : forall b, In b rest ->
                            same_files (view d' (key b)) (view d (key b))).
      { intros b Hb.
        assert (key b <> YM Y M)
          by (intros Q0; apply NI; change (key (Y, M)) with (YM Y M);
              rewrite <- Q0; now apply in_map).
        apply same_files_trans with (bucket d' (key b)); [apply view_same|].
        rewrite (U _ H). apply same_files_sym, view_same. }
      assert (S0 : forall b, In b rest -> stops_at E d' b = stops_at E d b).
      { intros b Hb. unfold stops_at. apply E_files. now apply V. }
      destruct (IH d' ND) as [I1 [I2 I3]].
      rewrite (existsb_ext_in _ _ _ S0) in I1.
      rewrite (up_to_first_ext _ _ _ S0) in I2, I3.
      split; [exact I1|]. split.
      * intros b [<-|Hb].
        -- change (key (Y, M)) with (YM Y M). rewrite I3, U0.
           ++ apply same_files_refl.
           ++ intros Hk. apply NI. apply in_map_iff in Hk as [b0 [Kb Hb]].
              apply in_map_iff. exists b0. split; [exact Kb|].
              now apply up_to_first_incl in Hb.
        -- apply same_files_trans with (F (fst b) (snd b) (view d' (key b)));
             [now apply I2|].
           apply F_files. apply V. now apply up_to_first_incl in Hb.
      * intros k Hk. rewrite I3.
        -- apply U. intros Q0. apply Hk. left. symmetry. exact Q0.
        -- intros Hk'. apply Hk. simpl. now right.
Qed.

End SweepFacts.

Lemma existsb_never {A : Type} (f : A -> bool) (l : list A) :
  (forall x, In x l -> f x = false) -> existsb f l = false.
Proof.
  induction l as [|y l IH]; intros H; simpl; [reflexivity|].
  rewrite (H y) by (simpl; auto). apply IH. intros; apply H; simpl; auto.
Qed.

Lemma NoDup_map_injective {A B : Type} (f : A -> B) (l : list A) (x y : A) :
  NoDup (map f l) -> In x l -> In y l -> f x = f y -> x = y.
Proof.
  induction l as [|a l IH]; simpl; intros ND Hx Hy E; [destruct Hx|].
  apply NoDup_cons_iff in ND as [NI ND].
  destruct Hx as [->|Hx]; destruct Hy as [->|Hy]; auto.
  - exfalso. apply NI. rewrite E. now apply in_map.
  - exfalso. apply NI. rewrite <- E. now apply in_map.
Qed.


(** ** From the listing to the items *)

Lemma item_fetches_no_index (tr : list event) :
  (forall e, In e tr -> event_index e = None) -> item_fetches tr = [].
Proof.
  induction tr as [|e tr IH]; intros H; simpl; [reflexivity|].
  rewrite IH by (intros; apply H; simpl; auto).
  specialize (H e (or_introl eq_refl)). now destruct e.
Qed.

Lemma combine_seq_map {A B : Type} (g : A -> B) (l : list A) (a : nat) :
  combine (seq a (length (map g l))) (map g l)
  = map (fun p => (fst p, g (snd p))) (combine (seq a (length l)) l).
Proof.
  revert a. induction l as [|x l IH]; intros a; simpl; [reflexivity|].
  now rewrite IH.
Qed.

(** X21: on a bucket without link log whose first listing page can be
    fetched, and whose links contain no line end, [step_one] writes the
    links found and then fetches them from the one after the cursor on,
    each one time and in the order found: with no record artifact these
    are all links but the first. *)
Theorem fresh_walk_then_items
        (network : string -> string -> nat -> response) (rng : nat -> unit_draw)
        (Year Month : string) (fs : files) (doc : soup) :
  log_file fs = None ->
  get_soup_default network rng (listing_url Year Month) None
  = Returned (Some doc) ->
  Forall (fun l => PyStr.line_free l = true)
         (walk_links network rng Year Month doc) ->
  let r := step_one network rng Year Month fs in
  log_file (fs_after r)
  = Some (lines_text (walk_links network rng Year Month doc)) /\
  item_fetches (trace r)
  = map (fun p => (fst p, prefix ++ PyStr.strip (snd p)))
        (skipn (S (already_query_qid fs))
               (indexed (walk_links network rng Year Month doc))) /\
  (res_file fs = None ->
   map snd (item_fetches (trace r))
   = map (fun l => prefix ++ PyStr.strip l)
         (tl (walk_links network rng Year Month doc))).
Proof.
  intros L F LF r.
  destruct (step_one_cases network rng Year Month fs)
    as [[text [L0 E]]|[[L0 [F0 E]]|[doc' [L0 [F0 E]]]]]; try congruence.
  assert (doc' = doc) as -> by congruence. cbv zeta in E.
  set (links := walk_links network rng Year Month doc) in *.
  assert (I : item_fetches (trace r)
              = map (fun p => (fst p, prefix ++ PyStr.strip (snd p)))
                    (skipn (S (already_query_qid fs)) (indexed links))).
  { subst r. rewrite E, crawl_items_written. cbn [trace].
    change (already_query_qid (ensure_dirs ["logs"; "results"] fs))
      with (already_query_qid fs).
    rewrite item_fetches_app, item_fetches_no_index.
    - cbn [app]. rewrite loop_events_fetches, filter_above_skipn, Nat.sub_0_r.
      rewrite (readlines_lines_text links LF).
      unfold indexed. rewrite combine_seq_map, skipn_map, map_map.
      apply map_ext. intros [i l]. cbn [fst snd].
      now rewrite strip_line_end.
    - intros e He. apply in_app_or in He as [[<-|He]|[<-|[]]]; try reflexivity.
      apply in_map_iff in He as [i [<- _]]. reflexivity. }
  split; [|split; [exact I|]].
  - subst r. rewrite E, crawl_items_written. cbn [fs_after].
    now rewrite log_file_append_all.
  - intros R. rewrite I.
    assert (A0 : already_query_qid fs = 0)
      by (unfold already_query_qid; now rewrite R).
    rewrite A0, map_map. cbn [snd]. unfold indexed.
    destruct links as [|l0 rest]; [reflexivity|].
    cbn [length seq combine skipn tl].
    rewrite <- (map_map snd (fun l => prefix ++ PyStr.strip l)).
    f_equal. clear. generalize 1 as a.
    induction rest as [|x rest IH]; intros a; simpl; [reflexivity|].
    now rewrite IH.
Qed.

Lemma fresh_walk_then_items_scenario :
  let r := step_one Scenario.network Scenario.rng "2024" "1" no_files in
  log_file no_files = None /\
  get_soup_default Scenario.network Scenario.rng (listing_url "2024" "1") None
  = Returned (Some Scenario.page_1) /\
  Forall (fun l => PyStr.line_free l = true)
         (walk_links Scenario.network Scenario.rng "2024" "1" Scenario.page_1) /\
  log_file (fs_after r)
  = Some (lines_text (walk_links Scenario.network Scenario.rng "2024" "1"
                                 Scenario.page_1)) /\
  item_fetches (trace r)
  = map (fun p => (fst p, prefix ++ PyStr.strip (snd p)))
        (skipn (S (already_query_qid no_files))
               (indexed (walk_links Scenario.network Scenario.rng "2024" "1"
                                    Scenario.page_1))) /\
  (res_file no_files = None ->
   map snd (item_fetches (trace r))
   = map (fun l => prefix ++ PyStr.strip l)
         (tl (walk_links Scenario.network Scenario.rng "2024" "1"
                         Scenario.page_1))).
Proof.
  intros r.
  assert (LF : Forall (fun l => PyStr.line_free l = true)
                 (walk_links Scenario.network Scenario.rng "2024" "1"
                             Scenario.page_1))
    by (vm_compute; repeat constructor).
  split; [reflexivity|]. split; [vm_compute; reflexivity|]. split; [exact LF|].
  apply (fresh_walk_then_items Scenario.network Scenario.rng "2024" "1"
           no_files Scenario.page_1); [reflexivity | vm_compute; reflexivity|].
  exact LF.
Defined.

(** ** Page numbers, written and read *)

Lemma rstrip_no_space (s : string) :
  (forall c, In c (list_ascii_of_string s) -> PyStr.is_space c = false) ->
  PyStr.rstrip s = s.
Proof.
  induction s as [|c s IH]; intros H; [reflexivity|].
  cbn [PyStr.rstrip]. rewrite IH by (intros; apply H; simpl; auto).
  destruct s; [|reflexivity]. now rewrite (H c) by (simpl; auto).
Qed.

Lemma strip_no_space (s : string) :
  (forall c, In c (list_ascii_of_string s) -> PyStr.is_space c = false) ->
  PyStr.strip s = s.
Proof.
  intros H. unfold PyStr.strip.
  assert (L : PyStr.lstrip s = s).
  { destruct s as [|c s]; [reflexivity|].
    cbn [PyStr.lstrip]. now rewrite (H c) by (simpl; auto). }
  rewrite L. now apply rstrip_no_space.
Qed.

Lemma numeral_no_space (d : Decimal.uint) (c : ascii) :
  In c (list_ascii_of_string (NilEmpty.string_of_uint d)) ->
  PyStr.is_space c = false.
Proof.
  induction d; simpl; try tauto; intros [<-|H]; auto.
Qed.

Lemma digits_value_numeral (d d' : Decimal.uint) :
  PyInt.digits_value (Z.of_N (Unsigned.of_lu d')) true
                     (NilEmpty.string_of_uint d)
  = Some (Z.of_N (Unsigned.of_lu (Decimal.revapp d d'))).
Proof.
  revert d'. induction d; intros d'; [reflexivity|..];
    cbn [NilEmpty.string_of_uint PyInt.digits_value Decimal.revapp];
    match goal with
    | |- context [PyStr.is_digit ?c] =>
        change (PyStr.is_digit c) with true; cbv iota
    end;
    rewrite <- IHd; f_equal;
    cbn [Unsigned.of_lu]; rewrite ?N2Z.inj_add, N2Z.inj_mul;
    match goal with
    | |- context [(Z.of_nat (nat_of_ascii ?c) - 48)%Z] =>
        let v := eval vm_compute in (Z.of_nat (nat_of_ascii c) - 48)%Z in
        change (Z.of_nat (nat_of_ascii c) - 48)%Z with v
    end;
    cbn [Z.of_N]; lia.
Qed.

Lemma digits_value_first (acc : Z) (d : Decimal.uint) :
  d <> Decimal.Nil ->
  PyInt.digits_value acc false (NilEmpty.string_of_uint d)
  = PyInt.digits_value acc true (NilEmpty.string_of_uint d).
Proof. destruct d; [contradiction | reflexivity ..]. Qed.

Lemma digits_value_positive (p : positive) :
  PyInt.digits_value 0 false (NilEmpty.string_of_uint (Pos.to_uint p))
  = Some (Z.pos p).
Proof.
  rewrite digits_value_first by apply Unsigned.to_uint_nonnil.
  pose proof (digits_value_numeral (Pos.to_uint p) Decimal.Nil) as H.
  change (Z.of_N (Unsigned.of_lu Decimal.Nil)) with 0%Z in H.
  change (Decimal.revapp (Pos.to_uint p) Decimal.Nil)
    with (Decimal.rev (Pos.to_uint p)) in H.
  rewrite <- Unsigned.of_uint_alt, Unsigned.of_to in H. exact H.
Qed.

(** The numeral that [f"{i}"] writes is read back by [int]. *)
Lemma int_of_Z (z : Z) : PyInt.int (PyStr.of_Z z) = Some z.
Proof.
  destruct z as [|p|p]; [reflexivity|..]; unfold PyStr.of_Z, PyInt.int;
    cbn [Z.to_int NilZero.string_of_int];
    pose proof (Unsigned.to_uint_nonnil p) as NN;
    pose proof (digits_value_positive p) as DV;
    pose proof (numeral_no_space (Pos.to_uint p)) as NS.
  - assert (E : NilZero.string_of_uint (Pos.to_uint p)
                = NilEmpty.string_of_uint (Pos.to_uint p))
      by (destruct (Pos.to_uint p); [contradiction | reflexivity ..]).
    rewrite E, (strip_no_space _ NS).
    destruct (Pos.to_uint p); [contradiction | exact DV ..].
  - assert (E : NilZero.string_of_uint (Pos.to_uint p)
                = NilEmpty.string_of_uint (Pos.to_uint p))
      by (destruct (Pos.to_uint p); [contradiction | reflexivity ..]).
    rewrite E, strip_no_space.
    + cbv iota beta. now rewrite DV.
    + simpl. intros c [<-|H]; [reflexivity | now apply NS].
Qed.



(** ** Calls that end early *)

Lemma step_one_after_ensure_dirs
      (network : string -> string -> nat -> response) (rng : nat -> unit_draw)
      (Year Month : string) (fs : files) :
  step_one network rng Year Month (ensure_dirs ["logs"; "results"] fs)
  = step_one network rng Year Month fs.
Proof.
  unfold step_one. rewrite ensure_dirs_present; [reflexivity|].
  intros p Hp. now apply ensure_dirs_creates.
Qed.

(** X23: a call of [step_one] whose fetch of the first listing page fails
    writes no file and fetches no item, and the next call, under
    whatever server, runs as if the failed call had not been made. *)
Theorem failed_listing_leaves_no_mark
        (network network' : string -> string -> nat -> response)
        (rng rng' : nat -> unit_draw) (Year Month : string) (fs : files) :
  log_file fs = None ->
  get_soup_default network rng (listing_url Year Month) None = Returned None ->
  let first := step_one network rng Year Month fs in
  same_files (fs_after first) fs /\
  item_fetches (trace first) = [] /\
  step_one network' rng' Year Month (fs_after first)
  = step_one network' rng' Year Month fs.
Proof.
  intros L F first.
  destruct (step_one_cases network rng Year Month fs)
    as [[text [L0 E]]|[[L0 [F0 E]]|[doc [L0 [F0 E]]]]]; try congruence.
  subst first. rewrite E. cbn [fs_after trace].
  split; [repeat split|]. split; [reflexivity|].
  apply step_one_after_ensure_dirs.
Qed.

Lemma failed_listing_leaves_no_mark_example :
  let first := step_one always_429 Scenario.rng "2024" "1" no_files in
  log_file no_files = None /\
  get_soup_default always_429 Scenario.rng (listing_url "2024" "1") None
  = Returned None /\
  same_files (fs_after first) no_files /\
  item_fetches (trace first) = [] /\
  step_one Scenario.network Scenario.rng "2024" "1" (fs_after first)
  = step_one Scenario.network Scenario.rng "2024" "1" no_files.
Proof.
  intros first. split; [reflexivity|]. split; [vm_compute; reflexivity|].
  apply (failed_listing_leaves_no_mark always_429 Scenario.network
           Scenario.rng Scenario.rng "2024" "1" no_files);
    [reflexivity | vm_compute; reflexivity].
Defined.


